(** * JPDBImport: the batched lookup and field-mapping pipeline of [__init_.py]

    A shallow embedding of [JPDBClient] ([_make_request], [list_deck_vocabulary],
    [lookup_vocabulary], [get_deck_cards]) and of [JPDBImportDialog.import_cards],
    followed by the properties of the import pipeline.

    Conventions.
    - A Python [str] is the list of its Unicode code points ([pystr]); the
      code indexes, measures and iterates values that may be strings, and those
      operations count code points.
    - A decoded JSON document ([json.loads]) is a [json] value.  JSON numbers
      with a fraction or an exponent (Python floats) are not represented: the
      remote schema carries integers only.
    - A Python exception is a value of [exc]; a computation that may raise has
      type [pyres A].
    - The network is an oracle [remote]: the outcome of [urlopen] for the
      [n]-th request of a run.  Requests, dialogs, prints and resets are
      recorded in a chronological trace; the Anki collection is explicit
      state. *)

From Stdlib Require Import String Ascii DecimalString.
From Stdlib Require Import ZArith NArith List Bool Lia Arith.
Import ListNotations.

Open Scope Z_scope.

#[local] Set Warnings "-register-all".

(** ** Python values *)

Module Py.

Definition pystr := list N.

(** An ASCII literal of the source, as code points. *)
Definition lit (s : string) : pystr :=
  map N_of_ascii (list_ascii_of_string s).
Arguments lit s%_string.

Fixpoint str_eqb (s t : pystr) : bool :=
  match s, t with
  | [], [] => true
  | c :: s', d :: t' => N.eqb c d && str_eqb s' t'
  | _, _ => false
  end.

Inductive json : Type :=
| JNull
| JBool (b : bool)
| JNum (n : Z)
| JStr (s : pystr)
| JArr (items : list json)
| JObj (members : list (pystr * json)).

Inductive exc : Type :=
| KeyError
| IndexError
| TypeError
| ValueError
| AttributeError
| JSONDecodeError
| OSError
| UnicodeEncodeError
| HTTPException (code : Z) (error_msg : pystr)   (* Exception(f"HTTP {e.code}: {error_msg}") *)
| ConnectionException (reason : pystr).          (* Exception(f"Connection error: {str(e)}") *)

Inductive pyres (A : Type) : Type :=
| Ok (a : A)
| Raise (e : exc).
Arguments Ok {A} a.
Arguments Raise {A} e.

Definition pbind {A B} (r : pyres A) (k : A -> pyres B) : pyres B :=
  match r with
  | Ok a => k a
  | Raise e => Raise e
  end.

(** [bool(v)]: None, False, 0, the empty string and the empty containers are
    false. *)
Definition truthy (v : json) : bool :=
  match v with
  | JNull => false
  | JBool b => b
  | JNum n => negb (n =? 0)
  | JStr s => match s with [] => false | _ => true end
  | JArr l => match l with [] => false | _ => true end
  | JObj d => match d with [] => false | _ => true end
  end.

Fixpoint dict_get (k : pystr) (d : list (pystr * json)) : option json :=
  match d with
  | [] => None
  | (k', v) :: d' => if str_eqb k k' then Some v else dict_get k d'
  end.

(** [a == b].  [bool] is a subclass of [int] ([True == 1]); sequences compare
    element by element; dicts compare as key-to-value maps. *)
Fixpoint py_eq (a b : json) {struct a} : bool :=
  match a, b with
  | JNull, JNull => true
  | JBool x, JBool y => Bool.eqb x y
  | JBool x, JNum n => (if x then 1 else 0) =? n
  | JNum n, JBool y => n =? (if y then 1 else 0)
  | JNum m, JNum n => m =? n
  | JStr s, JStr t => str_eqb s t
  | JArr l, JArr m =>
      (fix all2 (l m : list json) {struct l} : bool :=
         match l, m with
         | [], [] => true
         | x :: l', y :: m' => py_eq x y && all2 l' m'
         | _, _ => false
         end) l m
  | JObj d, JObj e =>
      (length d =? length e)%nat &&
      (fix all (d : list (pystr * json)) {struct d} : bool :=
         match d with
         | [] => true
         | (k, v) :: d' =>
             match dict_get k e with
             | Some w => py_eq v w && all d'
             | None => false
             end
         end) d
  | _, _ => false
  end.

(** The view of a value as a Python sequence (what [len], integer indexing,
    slicing and iteration see): a list is its items, a string is its
    one-character strings. *)
Definition chars (s : pystr) : list json := map (fun c => JStr [c]) s.

Definition as_sequence (v : json) : option (list json) :=
  match v with
  | JArr l => Some l
  | JStr s => Some (chars s)
  | _ => None
  end.

(** [len(v)] *)
Definition py_len (v : json) : pyres nat :=
  match v with
  | JArr l => Ok (length l)
  | JStr s => Ok (length s)
  | JObj d => Ok (length d)
  | _ => Raise TypeError
  end.

(** [v[i]] for a literal index [i >= 0].  The keys of a decoded JSON object
    are strings, so an integer key is never found. *)
Definition py_index (v : json) (i : nat) : pyres json :=
  match v with
  | JObj _ => Raise KeyError
  | _ =>
      match as_sequence v with
      | Some l => match nth_error l i with
                  | Some x => Ok x
                  | None => Raise IndexError
                  end
      | None => Raise TypeError
      end
  end.

(** [v[key]] for a string key. *)
Definition py_getitem (v : json) (key : pystr) : pyres json :=
  match v with
  | JObj d => match dict_get key d with
              | Some x => Ok x
              | None => Raise KeyError
              end
  | _ => Raise TypeError
  end.

Fixpoint is_prefix (p s : pystr) : bool :=
  match p, s with
  | [], _ => true
  | c :: p', d :: s' => N.eqb c d && is_prefix p' s'
  | _ :: _, [] => false
  end.

Fixpoint is_substring (p s : pystr) : bool :=
  is_prefix p s ||
  match s with
  | [] => false
  | _ :: s' => is_substring p s'
  end.

(** [key in v] for a string key: key membership for a dict, element
    membership for a list, substring test for a string. *)
Definition py_contains (key : pystr) (v : json) : pyres bool :=
  match v with
  | JObj d => Ok (match dict_get key d with Some _ => true | None => false end)
  | JArr l => Ok (existsb (py_eq (JStr key)) l)
  | JStr s => Ok (is_substring key s)
  | _ => Raise TypeError
  end.

(** Iteration ([for x in v], [list.extend(v)], a comprehension over [v]):
    a dict iterates its keys. *)
Definition py_iter (v : json) : pyres (list json) :=
  match v with
  | JObj d => Ok (map (fun kv => JStr (fst kv)) d)
  | _ =>
      match as_sequence v with
      | Some l => Ok l
      | None => Raise TypeError
      end
  end.

(** [l[:stop]] on the items of a sequence: a negative [stop] counts from the
    end. *)
Definition slice_to {A} (l : list A) (stop : Z) : list A :=
  if stop <? 0
  then firstn (Z.to_nat (Z.of_nat (length l) + stop)) l
  else firstn (Z.to_nat stop) l.

(** [l[i:i + n]] for [0 <= i] and [0 <= n]. *)
Definition slice {A} (l : list A) (i n : nat) : list A :=
  firstn n (skipn i l).

(** [v[:stop]] *)
Definition py_slice_to (v : json) (stop : Z) : pyres (list json) :=
  match as_sequence v with
  | Some l => Ok (slice_to l stop)
  | None => Raise TypeError
  end.

(** [range(0, n, step)] *)
Definition py_range (n : nat) (step : Z) : pyres (list nat) :=
  if step =? 0 then Raise ValueError
  else if step <? 0 then Ok []
  else
    let s := Z.to_nat step in
    Ok (map (fun k => (k * s)%nat) (seq 0 ((n + s - 1) / s))).

(** [sep.join(parts)] *)
Fixpoint join (sep : pystr) (parts : list pystr) : pystr :=
  match parts with
  | [] => []
  | [p] => p
  | p :: rest => p ++ sep ++ join sep rest
  end.

(** [str(n)] for an int *)
Definition str_of_int (n : Z) : pystr :=
  lit (NilZero.string_of_int (Z.to_int n)).

(** [str.isspace] on one code point, and [s.strip()] *)
Definition is_space (c : N) : bool :=
  ((9 <=? c) && (c <=? 13) || (28 <=? c) && (c <=? 32) ||
   (c =? 133) || (c =? 160) || (c =? 5760) ||
   (8192 <=? c) && (c <=? 8202) || (c =? 8232) || (c =? 8233) ||
   (c =? 8239) || (c =? 8287) || (c =? 12288))%N.

Fixpoint lstrip (s : pystr) : pystr :=
  match s with
  | c :: s' => if is_space c then lstrip s' else s
  | [] => []
  end.

Definition strip (s : pystr) : pystr := rev (lstrip (rev (lstrip s))).

Section Repr.

(** [repr] of a string consults the Unicode database of the interpreter
    (which characters are printable); it is a parameter. *)
Variable str_repr : pystr -> pystr.

(** [repr(v)] *)
Fixpoint py_repr (v : json) : pystr :=
  match v with
  | JNull => lit "None"
  | JBool true => lit "True"
  | JBool false => lit "False"
  | JNum n => str_of_int n
  | JStr s => str_repr s
  | JArr l =>
      lit "[" ++
      join (lit ", ")
        ((fix reprs (l : list json) : list pystr :=
            match l with
            | [] => []
            | x :: l' => py_repr x :: reprs l'
            end) l) ++
      lit "]"
  | JObj d =>
      lit "{" ++
      join (lit ", ")
        ((fix reprs (d : list (pystr * json)) : list pystr :=
            match d with
            | [] => []
            | (k, x) :: d' => (str_repr k ++ lit ": " ++ py_repr x) :: reprs d'
            end) d) ++
      lit "}"
  end.

(** [str(v)], also what an f-string field [{v}] formats to *)
Definition py_str (v : json) : pystr :=
  match v with
  | JStr s => s
  | _ => py_repr v
  end.

End Repr.

End Py.

(** ** The environment of a run: network, dialogs, Anki collection *)

Module World.
Import Py.

(** One POST of [_make_request]: the endpoint under [BASE_URL], the bearer
    token and the [data] that is serialized into the body. *)
Record request : Type := mkRequest {
  req_endpoint : pystr;
  req_api_key : pystr;
  req_data : json
}.

(** What [urlopen] and the decoding of the response do for a request. *)
Inductive url_result : Type :=
| UrlOk (body : json)                    (* 2xx, the body decodes to [body] *)
| UrlBadBody                             (* 2xx, the body is not JSON *)
| UrlHTTPError (code : Z) (body : pystr) (* urllib.error.HTTPError *)
| UrlURLError (reason : pystr).          (* urllib.error.URLError *)

(** The remote service: the outcome of a request, given how many requests
    the run has issued before it. *)
Definition remote : Type := nat -> request -> url_result.

(** The texts shown to the user, one constructor per literal or f-string of
    the source, carrying the interpolated values. *)
Inductive message : Type :=
| PleaseLoadDecks                          (* "Please load JPDB decks first." *)
| PleaseEnterDeckName                      (* "Please enter an Anki deck name." *)
| StartingImport                           (* "\nStarting import..." *)
| FetchingCards                            (* "Fetching cards from JPDB..." *)
| Retrieved (n : nat)                      (* f"Retrieved {len(cards)} cards." *)
| NoteTypeNotFound (note_type_name : pystr)(* f"Note type '{note_type_name}' not found." *)
| ImportComplete                           (* "\nImport complete!" *)
| ImportedCards (imported : nat)           (* f"Imported: {imported} cards" *)
| SkippedCards (skipped : nat)             (* f"Skipped: {skipped} cards" *)
| SuccessfullyImported (imported : nat) (deck_name : pystr)
                                           (* f"Successfully imported {imported} cards to '{deck_name}'!" *)
| ErrorDuringImport (e : exc)              (* f"\nError during import: {str(e)}" *)
| ImportFailed (e : exc).                  (* f"Import failed: {str(e)}" *)

Inductive event : Type :=
| NetCall (r : request)                    (* urllib.request.urlopen(request, timeout=30) *)
| StatusAppend (m : message)               (* self.status_text.append(...) *)
| ShowWarning (m : message)                (* showWarning(...) *)
| ShowInfo (m : message)                   (* showInfo(...) *)
| Print (args : list json)                 (* print(...) *)
| SaveConfig (api_key deck_name note_type : pystr)  (* self.config.save() *)
| ColReset                                 (* mw.col.reset() *)
| MwReset.                                 (* mw.reset() *)

(** The Anki collection, as far as the import uses it: decks by name (the
    handle of a deck is its position), note types by name with their number
    of fields, and the notes added. *)
Record notetype : Type := mkNotetype {
  nt_name : pystr;
  nt_fields : nat
}.

Record note : Type := mkNote {
  note_model : pystr;
  note_did : nat;
  note_fields : list json
}.

Record collection : Type := mkCollection {
  decks : list pystr;
  models : list notetype;
  notes : list note
}.

Fixpoint index_of (name : pystr) (l : list pystr) : option nat :=
  match l with
  | [] => None
  | x :: l' => if str_eqb name x then Some O
               else option_map S (index_of name l')
  end.

(** [mw.col.decks.id(name)]: the deck of that name, created if missing.
    The import uses the handle that is returned and nothing else of the
    decks.  Decks are told apart by their exact names here; that Anki takes
    names that differ only in case for the same deck, and that it creates the
    parents of a name with [::], is left out. *)
Definition decks_id (name : pystr) (c : collection) : nat * collection :=
  match index_of name (decks c) with
  | Some i => (i, c)
  | None => (length (decks c),
             mkCollection (decks c ++ [name]) (models c) (notes c))
  end.

(** [mw.col.models.by_name(name)] *)
Definition by_name (name : pystr) (c : collection) : option notetype :=
  find (fun nt => str_eqb name (nt_name nt)) (models c).

Definition is_str (v : json) : bool :=
  match v with JStr _ => true | _ => false end.

(** The collection with one more note. *)
Definition with_note (n : note) (c : collection) : collection :=
  mkCollection (decks c) (models c) (notes c ++ [n]).

(** [mw.col.addNote(note)]: the fields of a note are strings; a note that
    holds another value in a field is refused with [TypeError] when it is
    handed to the collection, and is not added. *)
Definition addNote (n : note) (c : collection) : pyres collection :=
  if forallb is_str (note_fields n)
  then Ok (with_note n c)
  else Raise TypeError.

Record state : Type := mkState {
  trace : list event;
  col : collection
}.

Definition init (c : collection) : state := mkState [] c.

(** Stateful computations that may raise; what was done before an exception
    stays done. *)
Definition M (A : Type) : Type := state -> pyres A * state.

Definition ret {A} (a : A) : M A := fun s => (Ok a, s).

Definition raise {A} (e : exc) : M A := fun s => (Raise e, s).

Definition bind {A B} (m : M A) (k : A -> M B) : M B :=
  fun s =>
    match m s with
    | (Ok a, s') => k a s'
    | (Raise e, s') => (Raise e, s')
    end.

Definition lift {A} (r : pyres A) : M A := fun s => (r, s).

Definition emit (e : event) : M unit :=
  fun s => (Ok tt, mkState (trace s ++ [e]) (col s)).

Definition with_col {A} (f : collection -> A * collection) : M A :=
  fun s => let (a, c) := f (col s) in (Ok a, mkState (trace s) c).

Definition read_col {A} (f : collection -> A) : M A :=
  fun s => (Ok (f (col s)), s).

(** An operation of the collection that may raise: the collection changes
    only if it does not. *)
Definition try_col (f : collection -> pyres collection) : M unit :=
  fun s =>
    match f (col s) with
    | Ok c => (Ok tt, mkState (trace s) c)
    | Raise e => (Raise e, s)
    end.

Definition net_calls (t : list event) : list request :=
  flat_map (fun e => match e with NetCall r => [r] | _ => [] end) t.

End World.

Declare Scope py_scope.
Delimit Scope py_scope with py.
Notation "x <- e ;; k" := (World.bind e (fun x => k))
  (at level 61, e at next level, right associativity) : py_scope.
Notation "e ;; k" := (World.bind e (fun _ => k))
  (at level 61, right associativity) : py_scope.
Notation "x <~ e ;; k" := (Py.pbind e (fun x => k))
  (at level 61, e at next level, right associativity) : py_scope.

(** ** [class JPDBConfig] *)

Module JPDBConfig.
Import Py.
Open Scope py_scope.

(** What [load] finds at [CONFIG_FILE]. *)
Inductive file : Type :=
| Missing                (* os.path.exists(CONFIG_FILE) is false *)
| Holds (data : json)    (* json.load(f) returns [data] *)
| Unreadable.            (* open(...) or json.load(f) raises *)

(** The attributes of a configuration; [load] stores whatever values the
    file holds under the keys. *)
Record config : Type := mkConfig {
  api_key : json;
  deck_name : json;
  note_type : json
}.

(** [data[key] if key in data else default] *)
Definition get_or (data : json) (key default : pystr) : pyres json :=
  present <~ py_contains key data ;;
  if present then py_getitem data key else Ok (JStr default).

(** Lines 22-31.  The three assignments happen in order; the bare [except]
    drops an exception and keeps what was assigned before it. *)
Definition load (self : config) (f : file) : config :=
  match f with
  | Holds data =>
      match get_or data (lit "api_key") [] with
      | Raise _ => self
      | Ok v =>
          let self := mkConfig v (deck_name self) (note_type self) in
          match get_or data (lit "deck_name") (lit "JPDB Import") with
          | Raise _ => self
          | Ok v =>
              let self := mkConfig (api_key self) v (note_type self) in
              match get_or data (lit "note_type") (lit "Basic") with
              | Raise _ => self
              | Ok v => mkConfig (api_key self) (deck_name self) v
              end
          end
      end
  | Missing => self
  | Unreadable => self
  end.

(** Lines 16-20: [JPDBConfig()] *)
Definition init (f : file) : config :=
  load (mkConfig (JStr []) (JStr (lit "JPDB Import")) (JStr (lit "Basic"))) f.

(** What the file system does with [open(CONFIG_FILE, 'w', encoding='utf-8')]
    and with what is written to the file. *)
Inductive device : Type :=
| Accepts                (* the file is opened, emptied, and takes every write *)
| Refuses                (* open(...) raises OSError; the file is not touched *)
| Breaks (remains : file). (* a write or the closing raises OSError *)

(** The code points that UTF-8 does not encode: the surrogates, U+D800 to
    U+DFFF.  A Python string may hold them. *)
Definition is_surrogate (c : N) : bool :=
  ((55296 <=? c) && (c <=? 57343))%N.

Definition encodable_str (s : pystr) : bool :=
  forallb (fun c => negb (is_surrogate c)) s.

(** With [ensure_ascii=False] the strings and keys of a value are written
    as they are, so the text of [json.dump] can be encoded exactly if none of
    them holds a surrogate. *)
Fixpoint encodable (v : json) : bool :=
  match v with
  | JNull | JBool _ | JNum _ => true
  | JStr s => encodable_str s
  | JArr l =>
      (fix all (l : list json) : bool :=
         match l with
         | [] => true
         | x :: l' => encodable x && all l'
         end) l
  | JObj d =>
      (fix all (d : list (pystr * json)) : bool :=
         match d with
         | [] => true
         | (k, x) :: d' => encodable_str k && encodable x && all d'
         end) d
  end.

(** Lines 34-38: [data] *)
Definition document (self : config) : json :=
  JObj [(lit "api_key", api_key self);
        (lit "deck_name", deck_name self);
        (lit "note_type", note_type self)].

(** Lines 33-40: how [save] ends, and the file after it, [old] being the
    file before.  When [open] raises, nothing is written.  Once the file is
    open it has been emptied; a string with a surrogate makes the write
    raise [UnicodeEncodeError], and what is left is the beginning of a
    document, which [json.load] does not accept. *)
Definition save (dev : device) (self : config) (old : file)
  : pyres unit * file :=
  let data := document self in
  match dev with
  | Refuses => (Raise OSError, old)
  | Breaks remains => (Raise OSError, remains)
  | Accepts =>
      if encodable data then (Ok tt, Holds data)
      else (Raise UnicodeEncodeError, Unreadable)
  end.

End JPDBConfig.

(** ** [class JPDBClient] *)

Module JPDBClient.
Import Py World.
Open Scope py_scope.

Section Client.

Variable net : remote.

(** [self.api_key] is the only attribute of a client. *)
Variable api_key : pystr.

Definition _make_request (endpoint : pystr) (data : option json) : M json :=
  fun s =>
    let data := match data with None => JObj [] | Some d => d end in
    let request := mkRequest endpoint api_key data in
    let s' := mkState (trace s ++ [NetCall request]) (col s) in
    match net (length (net_calls (trace s))) request with
    | UrlOk body => (Ok body, s')
    | UrlBadBody => (Raise JSONDecodeError, s')
    | UrlHTTPError code error_msg => (Raise (HTTPException code error_msg), s')
    | UrlURLError reason => (Raise (ConnectionException reason), s')
    end.

Definition get_deck_list : M json :=
  let data := JObj [(lit "fields", JArr [JStr (lit "id"); JStr (lit "name")])] in
  result <- _make_request (lit "list-user-decks") (Some data) ;;
  lift (py_getitem result (lit "decks")).

Definition vocabulary_data (deck_id : json) : json :=
  JObj [(lit "id", deck_id); (lit "fetch_occurences", JBool false)].

Definition list_deck_vocabulary (deck_id : json) : M json :=
  let data := vocabulary_data deck_id in
  result <- _make_request (lit "deck/list-vocabulary") (Some data) ;;
  lift (py_getitem result (lit "vocabulary")).

Definition lookup_fields : json :=
  JArr [JStr (lit "spelling"); JStr (lit "reading"); JStr (lit "meanings")].

Definition lookup_data (vocab_list : list json) : json :=
  JObj [(lit "list", JArr vocab_list); (lit "fields", lookup_fields)].

Definition lookup_vocabulary (vocab_list : list json) : M json :=
  let data := lookup_data vocab_list in
  result <- _make_request (lit "lookup-vocabulary") (Some data) ;;
  present <- lift (py_contains (lit "vocabulary_info") result) ;;
  if present then lift (py_getitem result (lit "vocabulary_info"))
  else ret (JArr []).

(** The inner loop of [get_deck_cards] (lines 109-116): [valid_batch] after
    the entries of [batch] have been visited. *)
Fixpoint filter_valid (batch : list json) (valid_batch : list json)
  : pyres (list json) :=
  match batch with
  | [] => Ok valid_batch
  | vocab_ids :: rest =>
      if truthy vocab_ids then
        n <~ py_len vocab_ids ;;
        if (1 <=? n)%nat then
          if (n =? 1)%nat then
            a <~ py_index vocab_ids 0 ;;
            b <~ py_index vocab_ids 0 ;;
            filter_valid rest (valid_batch ++ [JArr [a; b]])
          else
            a <~ py_index vocab_ids 0 ;;
            b <~ py_index vocab_ids 1 ;;
            filter_valid rest (valid_batch ++ [JArr [a; b]])
        else filter_valid rest valid_batch
      else filter_valid rest valid_batch
  end.

(** The outer loop of [get_deck_cards] (lines 105-120) over the values [i]
    of the range, with [cards] as accumulated so far. *)
Fixpoint lookup_batches (vocab_list : list json) (batch_size : nat)
    (starts : list nat) (cards : list json) : M (list json) :=
  match starts with
  | [] => ret cards
  | i :: rest =>
      let batch := slice vocab_list i batch_size in
      valid_batch <- lift (filter_valid batch []) ;;
      match valid_batch with
      | _ :: _ =>
          vocab_info_list <- lookup_vocabulary valid_batch ;;
          items <- lift (py_iter vocab_info_list) ;;
          lookup_batches vocab_list batch_size rest (cards ++ items)
      | [] => lookup_batches vocab_list batch_size rest cards
      end
  end.

Definition get_deck_cards (deck_id : json) (limit batch_size : Z)
  : M (list json) :=
  vocab_list <- list_deck_vocabulary deck_id ;;
  vocab_list <- lift (py_slice_to vocab_list limit) ;;
  starts <- lift (py_range (length vocab_list) batch_size) ;;
  lookup_batches vocab_list (Z.to_nat batch_size) starts [].

End Client.

End JPDBClient.

(** ** [class JPDBImportDialog]: [import_cards] *)

Module JPDBImportDialog.
Import Py World.
Open Scope py_scope.

(** The widgets and attributes of the dialog that [import_cards] reads. *)
Record dialog : Type := mkDialog {
  api_key_input : pystr;                 (* self.api_key_input.text() *)
  jpdb_deck_combo : list (pystr * json); (* the items: text and data *)
  jpdb_deck_index : nat;                 (* the current item *)
  anki_deck_input : pystr;               (* self.anki_deck_input.text() *)
  note_type_combo : pystr;               (* self.note_type_combo.currentText() *)
  jpdb_client : option pystr             (* None, or JPDBClient(api_key) *)
}.

(** [self.jpdb_deck_combo.currentData()] *)
Definition currentData (d : dialog) : json :=
  match nth_error (jpdb_deck_combo d) (jpdb_deck_index d) with
  | Some (_, data) => data
  | None => JNull
  end.

(** Lines 200-202: what [save_settings] assigns to [self.config] *)
Definition settings (d : dialog) : JPDBConfig.config :=
  JPDBConfig.mkConfig (JStr (strip (api_key_input d)))
    (JStr (strip (anki_deck_input d))) (JStr (note_type_combo d)).

(** Lines 199-203: how [save_settings] ends, and CONFIG_FILE after it *)
Definition save_settings (dev : JPDBConfig.device) (d : dialog)
    (f : JPDBConfig.file) : pyres unit * JPDBConfig.file :=
  JPDBConfig.save dev (settings d) f.

(** The entry that [save_settings()] leaves in the trace when it has
    returned. *)
Definition settings_saved (d : dialog) : M unit :=
  emit (SaveConfig (strip (api_key_input d)) (strip (anki_deck_input d))
          (note_type_combo d)).

(** [l[i] = x] *)
Definition py_setitem (l : list json) (i : nat) (x : json) : pyres (list json) :=
  if (i <? length l)%nat
  then Ok (firstn i l ++ x :: skipn (S i) l)
  else Raise IndexError.

(** How one pass through the body of the [for card_data in cards] loop ends
    when it does not raise: at a [continue] after [skipped += 1], or at
    [imported += 1]. *)
Inductive card_outcome : Type := Skipped | Imported.

Record counters : Type := mkCounters {
  imported : nat;
  skipped : nat
}.

Section ImportCards.

Variable net : remote.
Variable str_repr : pystr -> pystr.

(** Line 294 *)
Definition meaning_text_of (meanings_arr : json) : pyres pystr :=
  if truthy meanings_arr then
    ms <~ py_iter meanings_arr ;;
    Ok (join (lit ", ") (map (py_str str_repr) ms))
  else Ok [].

(** Lines 304-306 *)
Definition front_of (spelling reading : json) : pystr :=
  let front := py_str str_repr spelling in
  if truthy reading && negb (py_eq reading spelling)
  then front ++ lit " (" ++ py_str str_repr reading ++ lit ")"
  else front.

(** Lines 301-310: the fields of the new note *)
Definition fill_fields (fields : list json)
    (spelling reading : json) (meaning_text : pystr) : pyres (list json) :=
  if (2 <=? length fields)%nat then
    let front := front_of spelling reading in
    fields <~ py_setitem fields 0 (JStr front) ;;
    py_setitem fields 1 (JStr meaning_text)
  else
    py_setitem fields 0 spelling.

(** Lines 276-314: the body of the loop for one [card_data] *)
Definition import_card (note_type : notetype) (deck_id_anki : nat)
    (card_data : json) : M card_outcome :=
  if negb (truthy card_data) then ret Skipped
  else
    spelling_arr <- lift (py_index card_data 0) ;;
    reading_arr <- lift (py_index card_data 1) ;;
    meanings_arr <- lift (py_index card_data 2) ;;
    emit (Print [spelling_arr; reading_arr; meanings_arr]) ;;
    if negb (truthy spelling_arr) then ret Skipped
    else
      spelling <- lift (if truthy spelling_arr then py_index spelling_arr 0
                        else Ok (JStr [])) ;;
      reading <- lift (if truthy reading_arr then py_index reading_arr 0
                       else Ok (JStr [])) ;;
      meaning_text <- lift (meaning_text_of meanings_arr) ;;
      (* Note(mw.col, note_type); note.model()['did'] = deck_id_anki *)
      let fields := repeat (JStr []) (nt_fields note_type) in
      fields <- lift (fill_fields fields spelling reading meaning_text) ;;
      try_col (addNote (mkNote (nt_name note_type) deck_id_anki fields)) ;;
      ret Imported.

(** Lines 273-314: the loop, with the locals [imported] and [skipped] as
    they are when it ends or when an exception leaves it. *)
Fixpoint import_loop (note_type : notetype) (deck_id_anki : nat)
    (cards : list json) (c : counters) (s : state)
  : counters * pyres unit * state :=
  match cards with
  | [] => (c, Ok tt, s)
  | card_data :: rest =>
      match import_card note_type deck_id_anki card_data s with
      | (Ok Skipped, s') =>
          import_loop note_type deck_id_anki rest
            (mkCounters (imported c) (skipped c + 1)) s'
      | (Ok Imported, s') =>
          import_loop note_type deck_id_anki rest
            (mkCounters (imported c + 1) (skipped c)) s'
      | (Raise e, s') => (c, Raise e, s')
      end
  end.

(** Lines 254-323: the body of the [try] *)
Definition import_body (d : dialog) (deck_name : pystr) (deck_id : json)
    (note_type_name : pystr) : M unit :=
  emit (StatusAppend FetchingCards) ;;
  api_key <- match jpdb_client d with
             | Some k => ret k
             | None => raise AttributeError
             end ;;
  cards <- JPDBClient.get_deck_cards net api_key deck_id 1000 100 ;;
  emit (StatusAppend (Retrieved (length cards))) ;;
  deck_id_anki <- with_col (decks_id deck_name) ;;
  note_type <- read_col (by_name note_type_name) ;;
  match note_type with
  | None => emit (ShowWarning (NoteTypeNotFound note_type_name))
  | Some note_type =>
      fun s =>
        match import_loop note_type deck_id_anki cards (mkCounters 0 0) s with
        | (c, Ok _, s') =>
            (emit ColReset ;;
             emit MwReset ;;
             emit (StatusAppend ImportComplete) ;;
             emit (StatusAppend (ImportedCards (imported c))) ;;
             emit (StatusAppend (SkippedCards (skipped c))) ;;
             emit (ShowInfo (SuccessfullyImported (imported c) deck_name))) s'
        | (_, Raise e, s') => (Raise e, s')
        end
  end.

(** Lines 325-327: [except Exception as e] *)
Definition import_handler (e : exc) : M unit :=
  emit (StatusAppend (ErrorDuringImport e)) ;;
  emit (ShowWarning (ImportFailed e)).

(** Lines 236-327, for a call in which [save_settings()] at line 246
    returns: the dialog, the server and the collection.  The call together
    with CONFIG_FILE, where line 246 may also raise, is
    [import_cards_with_file]. *)
Definition import_cards (d : dialog) : M unit :=
  if (length (jpdb_deck_combo d) =? 0)%nat then
    emit (ShowWarning PleaseLoadDecks)
  else
    let deck_name := strip (anki_deck_input d) in
    match deck_name with
    | [] => emit (ShowWarning PleaseEnterDeckName)
    | _ :: _ =>
        settings_saved d ;;
        let deck_id := currentData d in
        let note_type_name := note_type_combo d in
        emit (StatusAppend StartingImport) ;;
        fun s =>
          match import_body d deck_name deck_id note_type_name s with
          | (Ok _, s') => (Ok tt, s')
          | (Raise e, s') => import_handler e s'
          end
    end.

(** Lines 236-327 with CONFIG_FILE.  [save_settings()] stands before the
    [try]: an exception of [self.config.save()] leaves [import_cards] at
    line 246, before anything is appended to the status text. *)
Definition import_cards_with_file (dev : JPDBConfig.device) (d : dialog)
    (f : JPDBConfig.file) (s : state)
  : pyres unit * state * JPDBConfig.file :=
  if (length (jpdb_deck_combo d) =? 0)%nat then
    (emit (ShowWarning PleaseLoadDecks) s, f)
  else
    let deck_name := strip (anki_deck_input d) in
    match deck_name with
    | [] => (emit (ShowWarning PleaseEnterDeckName) s, f)
    | _ :: _ =>
        match save_settings dev d f with
        | (Raise e, f') => (Raise e, s, f')
        | (Ok _, f') =>
            let deck_id := currentData d in
            let note_type_name := note_type_combo d in
            ((settings_saved d ;;
              emit (StatusAppend StartingImport) ;;
              fun s =>
                match import_body d deck_name deck_id note_type_name s with
                | (Ok _, s') => (Ok tt, s')
                | (Raise e, s') => import_handler e s'
                end) s, f')
        end
    end.

End ImportCards.

End JPDBImportDialog.

(** ** [JPDBImportDialog.load_jpdb_decks] *)

Module DeckLoading.
Import Py World JPDBImportDialog.

(** The texts of [load_jpdb_decks]. *)
Inductive notice : Type :=
| EnterApiKeyFirst            (* "Please enter your JPDB API key first." *)
| LoadingDecks                (* "Loading decks from JPDB..." *)
| LoadedDecks (n : nat)       (* f"Loaded {len(decks)} decks." *)
| LoadError (e : exc)         (* f"Error: {str(e)}" *)
| FailedToLoadDecks (e : exc). (* f"Failed to load decks: {str(e)}" *)

(** The log of a dialog session: the events of [World] (requests, and what
    [import_cards] shows) and, between them, the notices of
    [load_jpdb_decks]. *)
Inductive ui_event : Type :=
| Core (e : event)
| Status (m : notice)         (* self.status_text.append(...) *)
| Warning (m : notice).       (* showWarning(...) *)

Record session : Type := mkSession {
  dlg : dialog;
  log : list ui_event;
  store : collection
}.

Definition core_events (l : list ui_event) : list event :=
  flat_map (fun e => match e with Core x => [x] | _ => [] end) l.

Section Loading.

Variable net : remote.

(** [QComboBox.addItem(text, userData)] takes a [str]; what PyQt makes of
    another value as [text] (a conversion or a [TypeError]) is a
    parameter. *)
Variable qstring : json -> pyres pystr.

Definition item_text (deck_name : json) : pyres pystr :=
  match deck_name with
  | JStr text => Ok text
  | _ => qstring deck_name
  end.

(** Lines 223-229: the items of the combo box after the loop over [decks],
    and how the loop ends. *)
Fixpoint add_decks (decks : list json) (items : list (pystr * json))
  : list (pystr * json) * pyres unit :=
  match decks with
  | [] => (items, Ok tt)
  | deck :: rest =>
      if negb (truthy deck) then add_decks rest items
      else
        match py_len deck with
        | Raise e => (items, Raise e)
        | Ok n =>
            if (n <? 2)%nat then add_decks rest items
            else
              match py_index deck 0 with
              | Raise e => (items, Raise e)
              | Ok deck_id =>
                  match py_index deck 1 with
                  | Raise e => (items, Raise e)
                  | Ok deck_name =>
                      match item_text deck_name with
                      | Raise e => (items, Raise e)
                      | Ok text => add_decks rest (items ++ [(text, deck_id)])
                      end
                  end
              end
        end
  end.

(** The dialog after the combo box was cleared and filled with [items] for
    the client of [api_key]; the first item added becomes the current one. *)
Definition with_decks (d : dialog) (api_key : pystr)
    (items : list (pystr * json)) : dialog :=
  mkDialog (api_key_input d) items 0 (anki_deck_input d) (note_type_combo d)
    (Some api_key).

(** Lines 232-234: [except Exception as e] *)
Definition load_failed (e : exc) : list ui_event :=
  [Status (LoadError e); Warning (FailedToLoadDecks e)].

(** Lines 210-234 *)
Definition load_jpdb_decks (u : session) : session :=
  let d := dlg u in
  let api_key := strip (api_key_input d) in
  match api_key with
  | [] => mkSession d (log u ++ [Warning EnterApiKeyFirst]) (store u)
  | _ :: _ =>
      let log1 := log u ++ [Status LoadingDecks] in
      let s := mkState (core_events log1) (store u) in
      let (r, s') := JPDBClient.get_deck_list net api_key s in
      let log2 := log1 ++ map Core (skipn (length (trace s)) (trace s')) in
      match r with
      | Raise e =>
          mkSession (with_decks d api_key []) (log2 ++ load_failed e) (col s')
      | Ok decks =>
          match py_iter decks with
          | Raise e =>
              mkSession (with_decks d api_key []) (log2 ++ load_failed e)
                (col s')
          | Ok entries =>
              let (items, looped) := add_decks entries [] in
              match looped with
              | Raise e =>
                  mkSession (with_decks d api_key items)
                    (log2 ++ load_failed e) (col s')
              | Ok _ =>
                  match py_len decks with
                  | Raise e =>
                      mkSession (with_decks d api_key items)
                        (log2 ++ load_failed e) (col s')
                  | Ok n =>
                      mkSession (with_decks d api_key items)
                        (log2 ++ [Status (LoadedDecks n)]) (col s')
                  end
              end
          end
      end
  end.

End Loading.

End DeckLoading.

(** ** [JPDBImportDialog.__init__]: [load_note_types] and [load_settings] *)

Module DialogSetup.
Import Py World JPDBImportDialog.
Open Scope py_scope.

Section Opening.

(** [QLineEdit.setText] and [QComboBox.findText] take a [str]; what PyQt
    makes of another value (a conversion or a [TypeError]) is a parameter. *)
Variable qstring : json -> pyres pystr.

Definition qtext (v : json) : pyres pystr :=
  match v with
  | JStr text => Ok text
  | _ => qstring v
  end.

(** Lines 205-208: the items of the note type combo box, in the order of
    [mw.col.models.all_names_and_ids()]. *)
Definition load_note_types (c : collection) : list pystr :=
  map nt_name (models c).

(** The current text of a combo box filled with [items] (the first item
    added is the current one) after [findText(wanted)] and, for a match,
    [setCurrentIndex]: lines 195-197. *)
Definition select (wanted : pystr) (items : list pystr) : pystr :=
  match index_of wanted items with
  | Some idx => nth idx items []
  | None => hd [] items
  end.

(** Lines 125-132 and 192-197: the dialog as [import_cards] and
    [load_jpdb_decks] find it after [__init__], for the configuration that
    [JPDBConfig()] loaded (texts within the maximum length of a line
    edit). *)
Definition open_dialog (config : JPDBConfig.config) (c : collection)
  : pyres dialog :=
  let items := load_note_types c in
  api_key <~ qtext (JPDBConfig.api_key config) ;;
  deck_name <~ qtext (JPDBConfig.deck_name config) ;;
  wanted <~ qtext (JPDBConfig.note_type config) ;;
  Ok (mkDialog api_key [] 0 deck_name (select wanted items) None).

End Opening.

End DialogSetup.

(** ** Concrete decks, servers and dialogs *)

Module Examples.
Import Py World JPDBImportDialog.

Definition taberu : pystr := [0x98DF; 0x3079; 0x308B]%N.       (* 食べる *)
Definition taberu_kana : pystr := [0x305F; 0x3079; 0x308B]%N.  (* たべる *)

(** A stand-in for [repr] on strings (single quotes, nothing escaped). *)
Definition quote_repr (s : pystr) : pystr := lit "'" ++ s ++ lit "'".

(** A record of the lookup response: [[spellings, readings, meanings]]. *)
Definition record (spellings readings : list pystr) (meanings : list json) : json :=
  JArr [JArr (map JStr spellings); JArr (map JStr readings); JArr meanings].

Definition eat : json :=
  record [taberu] [taberu_kana] [JStr (lit "to eat"); JStr (lit "to dine")].

(** The id pairs a lookup request asks for. *)
Definition requested (data : json) : list json :=
  match py_getitem data (lit "list") with
  | Ok (JArr pairs) => pairs
  | _ => []
  end.

(** A server with one deck: it lists [vocabulary] for every deck id, answers
    a lookup with [info pair] for each requested pair, and fails the request
    number [fail_at] (if any) with HTTP 500. *)
Definition server (vocabulary : json) (info : json -> json)
    (fail_at : option nat) : remote :=
  fun n r =>
    if match fail_at with Some k => (n =? k)%nat | None => false end
    then UrlHTTPError 500 (lit "Internal Server Error")
    else if str_eqb (req_endpoint r) (lit "deck/list-vocabulary")
    then UrlOk (JObj [(lit "vocabulary", vocabulary)])
    else UrlOk (JObj [(lit "vocabulary_info", JArr (map info (requested (req_data r))))]).

(** [n] well-formed id entries [[k, k]], [k = 1 .. n]. *)
Definition ids (n : nat) : list json :=
  map (fun k => JArr [JNum (Z.of_nat k); JNum (Z.of_nat k)]) (seq 1 n).

Definition basic : notetype := mkNotetype (lit "Basic") 2.
Definition front_only : notetype := mkNotetype (lit "Front only") 1.

Definition collection0 : collection :=
  mkCollection [lit "Default"] [basic; front_only] [].

Definition dialog0 (note_type_name : pystr) : dialog :=
  mkDialog (lit "secret") [(lit "Core", JNum 7)] 0 (lit "JPDB Import")
    note_type_name (Some (lit "secret")).

End Examples.

(** ** General facts about the embedding *)

Module Facts.
Import Py World.
Open Scope py_scope.

Lemma str_eqb_refl (s : pystr) : str_eqb s s = true.
Proof.
  induction s as [|c s IH]; simpl; [reflexivity|].
  now rewrite N.eqb_refl, IH.
Qed.

Lemma str_eqb_eq (s t : pystr) : str_eqb s t = true <-> s = t.
Proof.
  split; [|intros ->; apply str_eqb_refl].
  revert t; induction s as [|c s IH]; intros [|d t]; simpl; try discriminate; auto.
  intros H; apply andb_prop in H as [Hc Hs].
  apply N.eqb_eq in Hc; subst d; f_equal; auto.
Qed.

Lemma str_eqb_neq (s t : pystr) : str_eqb s t = false <-> s <> t.
Proof.
  split.
  - intros H E; apply str_eqb_eq in E; congruence.
  - intros H; destruct (str_eqb s t) eqn:E; [|reflexivity].
    apply str_eqb_eq in E; contradiction.
Qed.

Lemma net_calls_app (t u : list event) :
  net_calls (t ++ u) = net_calls t ++ net_calls u.
Proof. unfold net_calls; apply flat_map_app. Qed.

Lemma skipn_length_app {A} (l m : list A) : skipn (length l) (l ++ m) = m.
Proof. induction l; simpl; auto. Qed.

(** The requests a computation issues when run from [s]. *)
Definition issued {A} (m : M A) (s : state) : list request :=
  skipn (length (net_calls (trace s))) (net_calls (trace (snd (m s)))).

(** [m], run from [s], appends the events [evs] to the trace, leaves the
    collection [c] and ends with [r]. *)
Definition runs {A} (m : M A) (s : state) (evs : list event)
    (c : collection) (r : pyres A) : Prop :=
  m s = (r, mkState (trace s ++ evs) c).

Lemma issued_runs {A} (m : M A) s evs c r :
  runs m s evs c r -> issued m s = net_calls evs.
Proof.
  unfold runs, issued; intros ->; simpl.
  rewrite net_calls_app; apply skipn_length_app.
Qed.

Lemma state_eta (s : state) : s = mkState (trace s ++ []) (col s).
Proof. destruct s; simpl; now rewrite app_nil_r. Qed.

Lemma runs_ret {A} (a : A) s : runs (ret a) s [] (col s) (Ok a).
Proof. unfold runs, ret; f_equal; apply state_eta. Qed.

Lemma runs_raise {A} e s : runs (@raise A e) s [] (col s) (Raise e).
Proof. unfold runs, raise; f_equal; apply state_eta. Qed.

Lemma runs_lift {A} (r : pyres A) s : runs (lift r) s [] (col s) r.
Proof. unfold runs, lift; f_equal; apply state_eta. Qed.

Lemma runs_emit e s : runs (emit e) s [e] (col s) (Ok tt).
Proof. reflexivity. Qed.

Lemma runs_read_col {A} (f : collection -> A) s :
  runs (read_col f) s [] (col s) (Ok (f (col s))).
Proof. unfold runs, read_col; f_equal; apply state_eta. Qed.

Lemma runs_with_col {A} (f : collection -> A * collection) s :
  runs (with_col f) s [] (snd (f (col s))) (Ok (fst (f (col s)))).
Proof.
  unfold runs, with_col; destruct (f (col s)); simpl.
  now rewrite app_nil_r.
Qed.

Lemma runs_bind_ok {A B} (m : M A) (k : A -> M B) s evs1 c1 a evs2 c2 r :
  runs m s evs1 c1 (Ok a) ->
  runs (k a) (mkState (trace s ++ evs1) c1) evs2 c2 r ->
  runs (bind m k) s (evs1 ++ evs2) c2 r.
Proof.
  unfold runs, bind; intros -> H; rewrite H; simpl.
  now rewrite app_assoc.
Qed.

Lemma runs_bind_raise {A B} (m : M A) (k : A -> M B) s evs c e :
  runs m s evs c (Raise e) -> runs (bind m k) s evs c (Raise e).
Proof. unfold runs, bind; now intros ->. Qed.

(** Every computation of [M] in this development only appends to the trace;
    [emits P m] says that the appended events satisfy [P]. *)
Definition emits {A} (P : event -> Prop) (m : M A) : Prop :=
  forall s, exists evs c r, runs m s evs c r /\ Forall P evs.

Lemma emits_ret {A} P (a : A) : emits P (ret a).
Proof. intros s; do 3 eexists; split; [apply runs_ret|constructor]. Qed.

Lemma emits_raise {A} P e : emits P (@raise A e).
Proof. intros s; do 3 eexists; split; [apply runs_raise|constructor]. Qed.

Lemma emits_lift {A} P (r : pyres A) : emits P (lift r).
Proof. intros s; do 3 eexists; split; [apply runs_lift|constructor]. Qed.

Lemma emits_emit (P : event -> Prop) e : P e -> emits P (emit e).
Proof. intros H s; do 3 eexists; split; [apply runs_emit|auto]. Qed.

Lemma emits_read_col {A} P (f : collection -> A) : emits P (read_col f).
Proof. intros s; do 3 eexists; split; [apply runs_read_col|constructor]. Qed.

Lemma emits_with_col {A} P (f : collection -> A * collection) :
  emits P (with_col f).
Proof. intros s; do 3 eexists; split; [apply runs_with_col|constructor]. Qed.

Lemma emits_try_col P (f : collection -> pyres collection) :
  emits P (try_col f).
Proof.
  intros s; destruct (f (col s)) as [c|e] eqn:E.
  - exists [], c, (Ok tt); split; [|constructor].
    unfold runs, try_col; rewrite E; now rewrite app_nil_r.
  - exists [], (col s), (Raise e); split; [|constructor].
    unfold runs, try_col; rewrite E; f_equal; apply state_eta.
Qed.

Lemma emits_bind {A B} P (m : M A) (k : A -> M B) :
  emits P m -> (forall a, emits P (k a)) -> emits P (bind m k).
Proof.
  intros Hm Hk s.
  destruct (Hm s) as (evs1 & c1 & r1 & H1 & F1).
  destruct r1 as [a|e].
  - destruct (Hk a (mkState (trace s ++ evs1) c1)) as (evs2 & c2 & r2 & H2 & F2).
    exists (evs1 ++ evs2), c2, r2; split.
    + eapply runs_bind_ok; eauto.
    + apply Forall_app; auto.
  - exists evs1, c1, (Raise e); split; [now apply runs_bind_raise|auto].
Qed.

Lemma emits_bind_lift {A B} P (r : pyres A) (k : A -> M B) :
  (forall a, r = Ok a -> emits P (k a)) -> emits P (bind (lift r) k).
Proof.
  intros Hk s; destruct r as [a|e].
  - destruct (Hk a eq_refl s) as (evs & c & r & H & F).
    exists evs, c, r; split; [exact H|exact F].
  - exists [], (col s), (Raise e); split; [|constructor].
    unfold runs, bind, lift; f_equal; apply state_eta.
Qed.

Lemma emits_issued {A} (P : event -> Prop) (Q : request -> Prop) (m : M A) :
  (forall r, P (NetCall r) -> Q r) ->
  emits P m -> forall s, Forall Q (issued m s).
Proof.
  intros HPQ Hm s.
  destruct (Hm s) as (evs & c & r & H & F).
  rewrite (issued_runs _ _ _ _ _ H).
  clear H; induction F as [|e evs He F IH]; simpl; [constructor|].
  destruct e; simpl; auto.
Qed.

End Facts.

(** ** [get_deck_cards]: normalization of id entries and the requests issued *)

Module Resolve.
Import Py World JPDBClient Facts.
Open Scope py_scope.

(** A well-formed id pair of a lookup request: a list of exactly two
    elements. *)
Definition is_pair (p : json) : Prop := exists a b, p = JArr [a; b].

(** What the normalization of lines 111-116 appends to [valid_batch] for an
    id entry that is a list. *)
Definition normalized (vocab_ids : list json) : list json :=
  match vocab_ids with
  | [] => []
  | [x] => [JArr [x; x]]
  | x :: y :: _ => [JArr [x; y]]
  end.

Lemma filter_valid_arr (vocab_ids : list json) (rest valid : list json) :
  filter_valid (JArr vocab_ids :: rest) valid =
  filter_valid rest (valid ++ normalized vocab_ids).
Proof.
  destruct vocab_ids as [|x [|y more]]; simpl.
  - now rewrite app_nil_r.
  - reflexivity.
  - reflexivity.
Qed.

Lemma filter_valid_lists (entries : list (list json)) (valid : list json) :
  filter_valid (map JArr entries) valid =
  Ok (valid ++ flat_map normalized entries).
Proof.
  revert valid; induction entries as [|e entries IH]; intros valid.
  - simpl; now rewrite app_nil_r.
  - cbn [map flat_map]; rewrite filter_valid_arr, IH, app_assoc; reflexivity.
Qed.

Lemma filter_valid_pairs (batch valid vb : list json) :
  Forall is_pair valid -> filter_valid batch valid = Ok vb -> Forall is_pair vb.
Proof.
  revert valid; induction batch as [|v batch IH]; intros valid Hv;
    cbn [filter_valid].
  - now intros [= <-].
  - destruct (truthy v); [|now apply IH].
    destruct (py_len v) as [n|]; cbn [pbind]; [|discriminate].
    destruct (1 <=? n)%nat; [|now apply IH].
    assert (Hadd : forall a b, Forall is_pair (valid ++ [JArr [a; b]])).
    { intros a b; apply Forall_app; split; [exact Hv|].
      constructor; [now exists a, b|constructor]. }
    destruct (n =? 1)%nat.
    + destruct (py_index v 0) as [a|]; cbn [pbind]; [|discriminate].
      now apply IH.
    + destruct (py_index v 0) as [a|]; cbn [pbind]; [|discriminate].
      destruct (py_index v 1) as [b|]; cbn [pbind]; [|discriminate].
      now apply IH.
Qed.

(** The two kinds of request [get_deck_cards] may issue. *)
Definition vocabulary_request (api_key : pystr) (deck_id : json) : request :=
  mkRequest (lit "deck/list-vocabulary") api_key (vocabulary_data deck_id).

Definition lookup_request (api_key : pystr) (pairs : list json) : request :=
  mkRequest (lit "lookup-vocabulary") api_key (lookup_data pairs).

Definition good_request (api_key : pystr) (deck_id : json) (r : request) : Prop :=
  r = vocabulary_request api_key deck_id \/
  exists pairs, r = lookup_request api_key pairs /\
                pairs <> [] /\ Forall is_pair pairs.

Definition good_event (api_key : pystr) (deck_id : json) (e : event) : Prop :=
  match e with
  | NetCall r => good_request api_key deck_id r
  | _ => True
  end.

Lemma runs_make_request net api_key endpoint data s :
  runs (_make_request net api_key endpoint (Some data)) s
    [NetCall (mkRequest endpoint api_key data)] (col s)
    (match net (length (net_calls (trace s))) (mkRequest endpoint api_key data) with
     | UrlOk body => Ok body
     | UrlBadBody => Raise JSONDecodeError
     | UrlHTTPError code error_msg => Raise (HTTPException code error_msg)
     | UrlURLError reason => Raise (ConnectionException reason)
     end).
Proof.
  unfold runs, _make_request.
  destruct (net _ _); reflexivity.
Qed.

Lemma emits_make_request (P : event -> Prop) net api_key endpoint data :
  P (NetCall (mkRequest endpoint api_key data)) ->
  emits P (_make_request net api_key endpoint (Some data)).
Proof.
  intros H s; do 3 eexists; split; [apply runs_make_request|auto].
Qed.

Section Invariant.

Variable net : remote.
Variable api_key : pystr.
Variable deck_id : json.

Let good := good_event api_key deck_id.

Lemma emits_lookup_vocabulary (pairs : list json) :
  pairs <> [] -> Forall is_pair pairs ->
  emits good (lookup_vocabulary net api_key pairs).
Proof.
  intros Hne Hp; unfold lookup_vocabulary.
  apply emits_bind.
  - apply emits_make_request; right; exists pairs; auto.
  - intros result; apply emits_bind; [apply emits_lift|].
    intros [|]; [apply emits_lift|apply emits_ret].
Qed.

Lemma emits_lookup_batches vocab_list batch_size starts cards :
  emits good (lookup_batches net api_key vocab_list batch_size starts cards).
Proof.
  revert cards; induction starts as [|i starts IH]; intros cards; simpl.
  - apply emits_ret.
  - apply emits_bind_lift; intros valid_batch Hvb.
    destruct valid_batch as [|p valid_batch]; [apply IH|].
    apply emits_bind.
    + apply emits_lookup_vocabulary; [discriminate|].
      eapply filter_valid_pairs; [|exact Hvb]; constructor.
    + intros info; apply emits_bind; [apply emits_lift|intros; apply IH].
Qed.

Lemma emits_get_deck_cards limit batch_size :
  emits good (get_deck_cards net api_key deck_id limit batch_size).
Proof.
  unfold get_deck_cards, list_deck_vocabulary.
  apply emits_bind.
  - apply emits_bind; [|intros; apply emits_lift].
    apply emits_make_request; now left.
  - intros v; apply emits_bind; [apply emits_lift|].
    intros l; apply emits_bind; [apply emits_lift|].
    intros starts; apply emits_lookup_batches.
Qed.

End Invariant.

(** C5.  An id entry [[]] is dropped: nothing is appended to the batch that is
    looked up, so no record, imported or skipped, ever comes back for it.  An
    entry [[x]] becomes the pair [[x, x]], and an entry [[x, y, ...]] the pair
    [[x, y]] without its trailing elements.  A batch of list entries is
    normalized entry by entry, in order. *)
Theorem C5_id_pair_normalization :
  (forall rest valid,
     filter_valid (JArr [] :: rest) valid = filter_valid rest valid) /\
  (forall x rest valid,
     filter_valid (JArr [x] :: rest) valid =
     filter_valid rest (valid ++ [JArr [x; x]])) /\
  (forall x y more rest valid,
     filter_valid (JArr (x :: y :: more) :: rest) valid =
     filter_valid rest (valid ++ [JArr [x; y]])) /\
  (forall entries : list (list json),
     filter_valid (map JArr entries) [] = Ok (flat_map normalized entries)) /\
  filter_valid [JArr [JNum 5]; JArr [JNum 5; JNum 9];
                JArr [JNum 5; JNum 9; JNum 99]; JArr []] [] =
  Ok [JArr [JNum 5; JNum 5]; JArr [JNum 5; JNum 9]; JArr [JNum 5; JNum 9]].
Proof.
  split; [|split; [|split; [|split]]].
  - intros; rewrite filter_valid_arr; simpl; now rewrite app_nil_r.
  - intros; apply filter_valid_arr.
  - intros; apply filter_valid_arr.
  - intros; apply filter_valid_lists.
  - reflexivity.
Qed.

(** C9.  Whatever the server answers and whatever the deck listing contains,
    every request [get_deck_cards] issues is either the one listing of the
    deck's vocabulary or a lookup whose list is non-empty and holds only
    two-element lists. *)
Theorem C9_lookup_requests_well_formed :
  forall (net : remote) (api_key : pystr) (deck_id : json)
         (limit batch_size : Z) (s : state),
    Forall (good_request api_key deck_id)
      (issued (get_deck_cards net api_key deck_id limit batch_size) s).
Proof.
  intros; eapply emits_issued; [|apply emits_get_deck_cards].
  intros r H; exact H.
Qed.

End Resolve.

(** ** [get_deck_cards]: truncation, chunking and the run against a server
       that answers *)

Module Batching.
Import Py World JPDBClient Facts Resolve.
Open Scope py_scope.
Open Scope nat_scope.

(** The successive values of [batch] in the loop of line 105 over a list [l]:
    [l[i:i + batch_size]] for [i] in [range(0, len(l), batch_size)]. *)
Definition chunks {A} (l : list A) (batch_size : nat) : list (list A) :=
  map (fun k => slice l (k * batch_size) batch_size)
      (seq 0 ((length l + batch_size - 1) / batch_size)).

Lemma py_range_chunks {A} (l : list A) (batch_size : Z) :
  (0 < batch_size)%Z ->
  exists starts,
    py_range (length l) batch_size = Ok starts /\
    map (fun i => slice l i (Z.to_nat batch_size)) starts =
    chunks l (Z.to_nat batch_size).
Proof.
  intros H; unfold py_range.
  destruct (Z.eqb_spec batch_size 0) as [->|_]; [lia|].
  destruct (Z.ltb_spec batch_size 0) as [?|_]; [lia|].
  eexists; split; [reflexivity|].
  unfold chunks; now rewrite map_map.
Qed.

Lemma slices_cover {A} (b m : nat) (l : list A) :
  length l <= m * b ->
  concat (map (fun k => slice l (k * b) b) (seq 0 m)) = l.
Proof.
  revert l; induction m as [|m IH]; intros l Hl.
  - destruct l; [reflexivity|simpl in Hl; lia].
  - cbn [seq map concat]; rewrite <- seq_shift, map_map.
    transitivity (firstn b l ++ skipn b l); [|apply firstn_skipn].
    f_equal.
    rewrite <- (IH (skipn b l)) by (rewrite length_skipn; lia).
    f_equal; apply map_ext; intros k; unfold slice.
    now rewrite skipn_skipn, (Nat.add_comm (k * b) b).
Qed.

Lemma chunks_cover {A} (l : list A) (b : nat) :
  0 < b -> concat (chunks l b) = l.
Proof.
  intros Hb; apply slices_cover.
  pose proof (Nat.div_mod_eq (length l + b - 1) b) as E.
  pose proof (Nat.mod_upper_bound (length l + b - 1) b ltac:(lia)) as U.
  nia.
Qed.

Lemma chunks_size {A} (l : list A) (b : nat) :
  Forall (fun c => length c <= b) (chunks l b).
Proof.
  unfold chunks; apply Forall_forall; intros c Hc.
  apply in_map_iff in Hc as (k & <- & _).
  unfold slice; apply firstn_le_length.
Qed.

Lemma slice_map {A B} (f : A -> B) (l : list A) (i n : nat) :
  slice (map f l) i n = map f (slice l i n).
Proof. unfold slice; now rewrite skipn_map, firstn_map. Qed.

Lemma slice_to_nonneg {A} (l : list A) (limit : Z) :
  (0 <= limit)%Z -> slice_to l limit = firstn (Z.to_nat limit) l.
Proof.
  intros H; unfold slice_to.
  destruct (Z.ltb_spec limit 0); [lia|reflexivity].
Qed.

Lemma normalized_length (e : list json) : length (normalized e) <= length e.
Proof. destruct e as [|x [|y more]]; simpl; lia. Qed.

Lemma flat_map_normalized_length (es : list (list json)) :
  length (flat_map normalized es) <= length es.
Proof.
  induction es as [|e es IH]; simpl; [lia|].
  rewrite length_app.
  destruct e as [|x [|y more]]; simpl; lia.
Qed.

(** The non-empty [valid_batch]es, chunk by chunk: the lists for which a
    lookup is made. *)
Definition is_nonempty {A} (l : list A) : bool :=
  match l with [] => false | _ :: _ => true end.

Definition lookups (batches : list (list (list json))) : list (list json) :=
  filter is_nonempty (map (flat_map normalized) batches).

(** The records of an answer: the [vocabulary_info] array, or nothing when
    the key is absent. *)
Definition info (a : option (list json)) : list json :=
  match a with Some l => l | None => [] end.

(** The cards collected from the lookups [calls] when the first of them is
    request number [n] and request [k] for [pairs] is answered by
    [answer k pairs]. *)
Definition collected (answer : nat -> list json -> option (list json))
    (n : nat) (calls : list (list json)) : list json :=
  concat (map (fun c => info (answer (fst c) (snd c)))
              (combine (seq n (length calls)) calls)).

(** The server answers every lookup: a JSON object whose [vocabulary_info],
    if present, is an array. *)
Definition answers (net : remote) (api_key : pystr)
    (answer : nat -> list json -> option (list json)) : Prop :=
  forall n pairs, exists members,
    net n (lookup_request api_key pairs) = UrlOk (JObj members) /\
    dict_get (lit "vocabulary_info") members = option_map JArr (answer n pairs).

(** The server lists the id entries [entries] for the deck. *)
Definition lists (net : remote) (api_key : pystr) (deck_id : json) (n : nat)
    (entries : list (list json)) : Prop :=
  exists body,
    net n (vocabulary_request api_key deck_id) = UrlOk body /\
    py_getitem body (lit "vocabulary") = Ok (JArr (map JArr entries)).

Section Answering.

Variable net : remote.
Variable api_key : pystr.
Variable answer : nat -> list json -> option (list json).
Hypothesis Hanswers : answers net api_key answer.

Lemma runs_lookup_vocabulary (pairs : list json) (s : state) :
  runs (lookup_vocabulary net api_key pairs) s
    [NetCall (lookup_request api_key pairs)] (col s)
    (Ok (JArr (info (answer (length (net_calls (trace s))) pairs)))).
Proof.
  destruct (Hanswers (length (net_calls (trace s))) pairs)
    as (members & Hnet & Hget).
  unfold lookup_request in Hnet.
  unfold runs, lookup_vocabulary, bind, _make_request.
  rewrite Hnet.
  unfold lift, py_contains, py_getitem; rewrite Hget.
  destruct (answer _ pairs); reflexivity.
Qed.

Lemma collected_cons n c calls :
  collected answer n (c :: calls) =
  info (answer n c) ++ collected answer (S n) calls.
Proof. reflexivity. Qed.

Lemma runs_lookup_batches (entries : list (list json)) (batch_size : nat)
    (starts : list nat) (cards : list json) (s : state) :
  let calls := lookups (map (fun i => slice entries i batch_size) starts) in
  runs (lookup_batches net api_key (map JArr entries) batch_size starts cards) s
    (map NetCall (map (lookup_request api_key) calls)) (col s)
    (Ok (cards ++ collected answer (length (net_calls (trace s))) calls)).
Proof.
  revert cards s; induction starts as [|i starts IH]; intros cards s calls.
  - subst calls; unfold collected; cbn.
    rewrite app_nil_r; apply runs_ret.
  - subst calls; unfold lookups; cbn [map filter lookup_batches].
    rewrite slice_map, filter_valid_lists; cbn [app].
    destruct (flat_map normalized (slice entries i batch_size))
      as [|p valid_batch] eqn:E; cbn [is_nonempty].
    + apply (IH cards s).
    + cbn [map]; rewrite collected_cons.
      set (n := length (net_calls (trace s))).
      set (req := lookup_request api_key (p :: valid_batch)).
      change (runs
        (bind (lookup_vocabulary net api_key (p :: valid_batch))
           (fun vocab_info_list =>
              bind (lift (py_iter vocab_info_list))
                (fun items =>
                   lookup_batches net api_key (map JArr entries) batch_size
                     starts (cards ++ items))))
        s ([NetCall req] ++
           map NetCall (map (lookup_request api_key)
             (lookups (map (fun i => slice entries i batch_size) starts))))
        (col s)
        (Ok (cards ++ info (answer n (p :: valid_batch)) ++
             collected answer (S n)
               (lookups (map (fun i => slice entries i batch_size) starts))))).
      eapply runs_bind_ok; [apply runs_lookup_vocabulary|].
      fold n req.
      pose proof (IH (cards ++ info (answer n (p :: valid_batch)))
                     (mkState (trace s ++ [NetCall req]) (col s))) as H.
      cbn [trace col] in H.
      rewrite net_calls_app, length_app in H.
      cbn [net_calls flat_map app length] in H.
      fold n in H; rewrite Nat.add_1_r, <- app_assoc in H.
      exact H.
Qed.

Lemma runs_get_deck_cards (deck_id : json) (limit batch_size : Z)
    (entries : list (list json)) (s : state) :
  lists net api_key deck_id (length (net_calls (trace s))) entries ->
  (0 <= limit)%Z -> (0 < batch_size)%Z ->
  let retained := firstn (Z.to_nat limit) entries in
  let calls := lookups (chunks retained (Z.to_nat batch_size)) in
  runs (get_deck_cards net api_key deck_id limit batch_size) s
    (NetCall (vocabulary_request api_key deck_id) ::
     map NetCall (map (lookup_request api_key) calls)) (col s)
    (Ok (collected answer (S (length (net_calls (trace s)))) calls)).
Proof.
  intros (body & Hnet & Hget) Hl Hb retained calls.
  destruct (py_range_chunks retained batch_size Hb) as (starts & Hr & Hc).
  pose proof (runs_lookup_batches retained (Z.to_nat batch_size) starts []
                (mkState (trace s ++ [NetCall (vocabulary_request api_key deck_id)])
                   (col s))) as H.
  cbn [trace col] in H; rewrite Hc in H; fold calls in H.
  rewrite net_calls_app, length_app in H.
  cbn [net_calls flat_map app length] in H.
  rewrite Nat.add_1_r in H.
  unfold runs in *; cbn [trace] in H; rewrite <- app_assoc in H; cbn [app] in H.
  unfold get_deck_cards, list_deck_vocabulary, bind, _make_request.
  unfold vocabulary_request in Hnet; rewrite Hnet.
  unfold lift; rewrite Hget.
  unfold py_slice_to, as_sequence.
  rewrite slice_to_nonneg, firstn_map by exact Hl.
  fold retained; rewrite length_map, Hr.
  exact H.
Qed.

End Answering.

End Batching.

(** ** Requests are issued one after the other, and none after a failure *)

Module Sequencing.
Import Py World JPDBClient Facts Resolve.
Open Scope py_scope.
Open Scope nat_scope.

(** The first [upto] of the requests [reqs], issued from request number [n0]
    on, were answered with a decodable 2xx response. *)
Definition answered (net : remote) (n0 : nat) (reqs : list request)
    (upto : nat) : Prop :=
  forall i r, i < upto -> nth_error reqs i = Some r ->
    exists body, net (n0 + i) r = UrlOk body.

(** How many of [n] requests must have been answered for a computation to
    end with [r]: all of them for a result, all but the last for an
    exception. *)
Definition settled {A} (r : pyres A) (n : nat) : nat :=
  match r with Ok _ => n | Raise _ => pred n end.

Definition sequential (net : remote) {A} (m : M A) : Prop :=
  forall s, exists evs c r,
    runs m s evs c r /\
    answered net (length (net_calls (trace s))) (net_calls evs)
      (settled r (length (net_calls evs))).

Lemma answered_nil net n0 upto : answered net n0 [] upto.
Proof. intros i r _ H; destruct i; discriminate. Qed.

Lemma sequential_ret net {A} (a : A) : sequential net (ret a).
Proof. intros s; do 3 eexists; split; [apply runs_ret|apply answered_nil]. Qed.

Lemma sequential_lift net {A} (r : pyres A) : sequential net (lift r).
Proof. intros s; do 3 eexists; split; [apply runs_lift|apply answered_nil]. Qed.

Lemma sequential_make_request net api_key endpoint data :
  sequential net (_make_request net api_key endpoint (Some data)).
Proof.
  intros s; do 3 eexists; split; [apply runs_make_request|].
  intros i r Hi Hr; cbn in Hr.
  destruct (net _ _) as [body| | |] eqn:E; cbn in Hi; try lia.
  assert (i = 0) as -> by lia.
  injection Hr as <-; rewrite Nat.add_0_r; now exists body.
Qed.

Lemma sequential_bind net {A B} (m : M A) (k : A -> M B) :
  sequential net m -> (forall a, sequential net (k a)) ->
  sequential net (bind m k).
Proof.
  intros Hm Hk s.
  destruct (Hm s) as (evs1 & c1 & r1 & H1 & F1).
  destruct r1 as [a|e].
  - destruct (Hk a (mkState (trace s ++ evs1) c1)) as (evs2 & c2 & r2 & H2 & F2).
    exists (evs1 ++ evs2), c2, r2; split; [eapply runs_bind_ok; eauto|].
    cbn [trace] in F2; rewrite net_calls_app, length_app in F2.
    rewrite net_calls_app, length_app.
    intros i r Hi Hr.
    destruct (Nat.lt_ge_cases i (length (net_calls evs1))) as [Hlt|Hge].
    + rewrite nth_error_app1 in Hr by exact Hlt.
      apply (F1 i r); [exact Hlt|exact Hr].
    + rewrite nth_error_app2 in Hr by exact Hge.
      destruct (F2 (i - length (net_calls evs1)) r) as (body & Hb); [|exact Hr|].
      * destruct r2; cbn [settled] in *; lia.
      * exists body; rewrite <- Hb; f_equal; lia.
  - exists evs1, c1, (Raise e); split; [now apply runs_bind_raise|exact F1].
Qed.

Lemma sequential_bind_lift net {A B} (r : pyres A) (k : A -> M B) :
  (forall a, sequential net (k a)) -> sequential net (bind (lift r) k).
Proof. intros; apply sequential_bind; [apply sequential_lift|auto]. Qed.

Lemma sequential_lookup_vocabulary net api_key pairs :
  sequential net (lookup_vocabulary net api_key pairs).
Proof.
  unfold lookup_vocabulary.
  apply sequential_bind; [apply sequential_make_request|].
  intros result; apply sequential_bind_lift.
  intros [|]; [apply sequential_lift|apply sequential_ret].
Qed.

Lemma sequential_lookup_batches net api_key vocab_list batch_size starts cards :
  sequential net (lookup_batches net api_key vocab_list batch_size starts cards).
Proof.
  revert cards; induction starts as [|i starts IH]; intros cards; cbn.
  - apply sequential_ret.
  - apply sequential_bind_lift; intros [|p valid_batch]; [apply IH|].
    apply sequential_bind; [apply sequential_lookup_vocabulary|].
    intros infos; apply sequential_bind_lift; intros; apply IH.
Qed.

Lemma sequential_get_deck_cards net api_key deck_id limit batch_size :
  sequential net (get_deck_cards net api_key deck_id limit batch_size).
Proof.
  unfold get_deck_cards, list_deck_vocabulary.
  apply sequential_bind.
  - apply sequential_bind; [apply sequential_make_request|].
    intros; apply sequential_lift.
  - intros v; apply sequential_bind_lift.
    intros l; apply sequential_bind_lift.
    intros starts; apply sequential_lookup_batches.
Qed.

(** Every request that is followed by another one had been answered. *)
Lemma no_request_after_failure net {A} (m : M A) (s : state) :
  sequential net m ->
  forall i r, S i < length (issued m s) ->
    nth_error (issued m s) i = Some r ->
    exists body, net (length (net_calls (trace s)) + i) r = UrlOk body.
Proof.
  intros Hm i r Hi Hr.
  destruct (Hm s) as (evs & c & res & H & F).
  rewrite (issued_runs _ _ _ _ _ H) in Hi, Hr.
  apply (F i r); [|exact Hr].
  destruct res; cbn [settled]; lia.
Qed.

End Sequencing.

(** ** [get_deck_cards] (resolveDeck): the claims on batching *)

Module ResolveDeck.
Import Py World JPDBClient Facts Resolve Batching Sequencing Examples.
Open Scope nat_scope.

(** The lookup requests among [reqs]. *)
Definition lookup_calls (reqs : list request) : list request :=
  filter (fun r => str_eqb (req_endpoint r) (lit "lookup-vocabulary")) reqs.

Lemma collected_length answer n calls :
  (forall k pairs, length (info (answer k pairs)) <= length pairs) ->
  length (collected answer n calls) <= length (concat calls).
Proof.
  intros H; revert n; induction calls as [|c calls IH]; intros n.
  - apply Nat.le_refl.
  - rewrite collected_cons; cbn [concat]; rewrite !length_app.
    specialize (IH (S n)); specialize (H n c); lia.
Qed.

Lemma lookups_length (batches : list (list (list json))) :
  length (concat (lookups batches)) <= length (concat batches).
Proof.
  unfold lookups; induction batches as [|b batches IH]; cbn [map filter concat].
  - apply Nat.le_refl.
  - pose proof (flat_map_normalized_length b) as Hb.
    rewrite length_app.
    destruct (flat_map normalized b); cbn [is_nonempty concat] in *.
    + lia.
    + rewrite length_app; cbn [length] in *; lia.
Qed.

Lemma server_answers vocabulary rec api_key :
  answers (server vocabulary rec None) api_key
    (fun _ pairs => Some (map rec pairs)).
Proof. intros n pairs; eexists; split; reflexivity. Qed.

Lemma server_lists vocabulary rec api_key deck_id n entries :
  vocabulary = JArr (map JArr entries) ->
  lists (server vocabulary rec None) api_key deck_id n entries.
Proof. intros ->; eexists; split; reflexivity. Qed.

(** C4.  Against a server that lists the id entries [entries] for the deck
    and answers every lookup with at most one record per requested pair,
    [get_deck_cards] keeps the first [limit] entries, visits them in
    consecutive batches of at most [batch_size] entries that together are
    exactly the retained entries, and returns the concatenation of the
    answers' [vocabulary_info] arrays (nothing for an absent key), which has
    at most [min(len(entries), limit)] records. *)
Theorem C4_truncation_chunking_and_output_bound :
  forall (net : remote) (api_key : pystr) (deck_id : json)
         (limit batch_size : Z) (entries : list (list json))
         (answer : nat -> list json -> option (list json)) (s : state),
    (0 <= limit)%Z -> (0 < batch_size)%Z ->
    lists net api_key deck_id (length (net_calls (trace s))) entries ->
    answers net api_key answer ->
    (forall k pairs, length (info (answer k pairs)) <= length pairs) ->
    let retained := firstn (Z.to_nat limit) entries in
    let batches := chunks retained (Z.to_nat batch_size) in
    py_slice_to (JArr (map JArr entries)) limit = Ok (map JArr retained) /\
    (exists starts,
       py_range (length retained) batch_size = Ok starts /\
       map (fun i => slice retained i (Z.to_nat batch_size)) starts = batches) /\
    concat batches = retained /\
    Forall (fun b => length b <= Z.to_nat batch_size) batches /\
    exists cards s',
      get_deck_cards net api_key deck_id limit batch_size s = (Ok cards, s') /\
      cards = collected answer (S (length (net_calls (trace s)))) (lookups batches) /\
      length cards <= Nat.min (length entries) (Z.to_nat limit).
Proof.
  intros net api_key deck_id limit batch_size entries answer s
         Hl Hb Hlists Hans Hone retained batches.
  split; [|split; [|split; [|split]]].
  - unfold py_slice_to, as_sequence.
    now rewrite slice_to_nonneg, firstn_map by exact Hl.
  - apply py_range_chunks; exact Hb.
  - apply chunks_cover; lia.
  - apply chunks_size.
  - pose proof (runs_get_deck_cards net api_key answer Hans deck_id limit
                  batch_size entries s Hlists Hl Hb) as H.
    cbv zeta in H; fold retained batches in H; unfold runs in H.
    do 2 eexists; split; [exact H|split; [reflexivity|]].
    eapply Nat.le_trans; [apply collected_length; exact Hone|].
    eapply Nat.le_trans; [apply lookups_length|].
    unfold batches; rewrite chunks_cover by lia.
    unfold retained; rewrite length_firstn; lia.
Qed.

Lemma C4_witness :
  let net := server (JArr (ids 5)) (fun _ => eat) None in
  let entries := map (fun k => [JNum (Z.of_nat k); JNum (Z.of_nat k)]) (seq 1 5) in
  let batches := chunks (firstn 4 entries) 2 in
  concat batches = firstn 4 entries /\
  Forall (fun b => length b <= 2) batches /\
  exists cards s',
    get_deck_cards net (lit "secret") (JNum 7) 4 2 (init collection0) = (Ok cards, s') /\
    length cards <= 4.
Proof.
  intros net entries batches.
  pose proof (C4_truncation_chunking_and_output_bound net (lit "secret") (JNum 7)
                4%Z 2%Z entries (fun _ pairs => Some (map (fun _ => eat) pairs))
                (init collection0) ltac:(lia) ltac:(lia)
                (server_lists _ _ _ _ _ entries eq_refl)
                (server_answers _ _ _)
                (fun k pairs => eq_ind_r (fun n => n <= length pairs)
                                  (le_n _) (length_map _ pairs)))
    as (_ & _ & Hcover & Hsize & cards & s' & Hrun & _ & Hlen).
  split; [exact Hcover|split; [exact Hsize|]].
  exists cards, s'; split; [exact Hrun|exact Hlen].
Defined.

(** C3, where it fails: a deck whose single id entry is empty is visited as
    one batch, and no lookup is made for it. *)
Lemma C3_counterexample :
  let net := server (JArr [JArr []]) (fun _ => eat) None in
  let run := get_deck_cards net (lit "secret") (JNum 7) 1000 100 in
  py_range (length [JArr []]) 100 = Ok [0] /\
  length (chunks [@nil json] 100) = 1 /\
  fst (run (init collection0)) = Ok [] /\
  issued run (init collection0) = [vocabulary_request (lit "secret") (JNum 7)] /\
  length (lookup_calls (issued run (init collection0))) <>
  length (chunks [@nil json] 100).
Proof.
  cbv zeta; repeat (split; [reflexivity|]).
  vm_compute; discriminate.
Qed.

(** C3 (amended).  [get_deck_cards] issues its requests one after the other:
    - against a server that lists [entries] and answers every lookup, the
      requests are the listing of the deck followed by exactly one lookup,
      in batch order, for each batch whose normalized [valid_batch] is not
      empty (a batch of empty entries only is passed over without a call);
    - whatever the server does, a request is issued only after every earlier
      one was answered, so nothing is requested after a failed call;
    - for 250 well-formed ids with [limit = 1000] and [batch_size = 100]
      these are three lookups of 100, 100 and 50 pairs, and if the second
      lookup fails the third is never issued and the resolution raises. *)
Theorem C3_one_lookup_per_nonempty_batch_in_order :
  (forall (net : remote) (api_key : pystr) (deck_id : json)
          (limit batch_size : Z) (entries : list (list json))
          (answer : nat -> list json -> option (list json)) (s : state),
     (0 <= limit)%Z -> (0 < batch_size)%Z ->
     lists net api_key deck_id (length (net_calls (trace s))) entries ->
     answers net api_key answer ->
     issued (get_deck_cards net api_key deck_id limit batch_size) s =
     vocabulary_request api_key deck_id ::
     map (lookup_request api_key)
       (lookups (chunks (firstn (Z.to_nat limit) entries) (Z.to_nat batch_size)))) /\
  (forall (net : remote) (api_key : pystr) (deck_id : json)
          (limit batch_size : Z) (s : state) (i : nat) (r : request),
     let reqs := issued (get_deck_cards net api_key deck_id limit batch_size) s in
     S i < length reqs -> nth_error reqs i = Some r ->
     exists body, net (length (net_calls (trace s)) + i) r = UrlOk body) /\
  (let run := get_deck_cards (server (JArr (ids 250)) (fun _ => eat) None)
                (lit "secret") (JNum 7) 1000 100 in
   issued run (init collection0) =
   vocabulary_request (lit "secret") (JNum 7) ::
   map (lookup_request (lit "secret"))
     [slice (ids 250) 0 100; slice (ids 250) 100 100; slice (ids 250) 200 100] /\
   map (@length json)
     [slice (ids 250) 0 100; slice (ids 250) 100 100; slice (ids 250) 200 100] =
   [100; 100; 50]) /\
  (let run := get_deck_cards (server (JArr (ids 250)) (fun _ => eat) (Some 2))
                (lit "secret") (JNum 7) 1000 100 in
   issued run (init collection0) =
   vocabulary_request (lit "secret") (JNum 7) ::
   map (lookup_request (lit "secret"))
     [slice (ids 250) 0 100; slice (ids 250) 100 100] /\
   fst (run (init collection0)) =
   Raise (HTTPException 500 (lit "Internal Server Error"))).
Proof.
  split; [|split; [|split]].
  - intros net api_key deck_id limit batch_size entries answer s Hl Hb Hlists Hans.
    pose proof (runs_get_deck_cards net api_key answer Hans deck_id limit
                  batch_size entries s Hlists Hl Hb) as H.
    cbv zeta in H; rewrite (issued_runs _ _ _ _ _ H).
    cbn [net_calls flat_map app]; f_equal.
    generalize (map (lookup_request api_key)
                  (lookups (chunks (firstn (Z.to_nat limit) entries)
                              (Z.to_nat batch_size)))).
    intros l; induction l as [|r l IH]; cbn; [reflexivity|now f_equal].
  - intros net api_key deck_id limit batch_size s i r reqs.
    apply no_request_after_failure, sequential_get_deck_cards.
  - cbv zeta; split; vm_compute; reflexivity.
  - cbv zeta; split; vm_compute; reflexivity.
Qed.

Lemma C3_witness :
  let net := server (JArr [JArr []; JArr [JNum 5]; JArr [JNum 5; JNum 9; JNum 99]])
               (fun _ => eat) None in
  issued (get_deck_cards net (lit "secret") (JNum 7) 1000 1) (init collection0) =
  [vocabulary_request (lit "secret") (JNum 7);
   lookup_request (lit "secret") [JArr [JNum 5; JNum 5]];
   lookup_request (lit "secret") [JArr [JNum 5; JNum 9]]].
Proof.
  intros net.
  exact (proj1 C3_one_lookup_per_nonempty_batch_in_order net (lit "secret")
           (JNum 7) 1000%Z 1%Z [[]; [JNum 5]; [JNum 5; JNum 9; JNum 99]]
           (fun _ pairs => Some (map (fun _ => eat) pairs)) (init collection0)
           ltac:(lia) ltac:(lia)
           (server_lists _ _ _ _ _ [[]; [JNum 5]; [JNum 5; JNum 9; JNum 99]] eq_refl)
           (server_answers _ _ _)).
Defined.

End ResolveDeck.

(** ** The body of the import loop: field mapping *)

Module FieldMapper.
Import Py World JPDBImportDialog Facts Batching Examples.
Open Scope nat_scope.

(** The [vocabulary_info] record of §6 with its three sub-arrays; the
    meanings may be absent ([None] stands for JSON [null]). *)
Definition record_of (spellings readings : list pystr)
    (meanings : option (list json)) : json :=
  JArr [JArr (map JStr spellings); JArr (map JStr readings);
        match meanings with Some ms => JArr ms | None => JNull end].

Definition meanings_of (meanings : option (list json)) : list json :=
  match meanings with Some ms => ms | None => [] end.

(** The state after one record was imported as a note with [fields]. *)
Definition imported_state (s : state) (printed : list json) (nt : notetype)
    (did : nat) (fields : list json) : state :=
  mkState (trace s ++ [Print printed])
          (with_note (mkNote (nt_name nt) did fields) (col s)).

Section Mapping.

Variable str_repr : pystr -> pystr.

Lemma meaning_text_of_list (meanings : option (list json)) :
  meaning_text_of str_repr
    (match meanings with Some ms => JArr ms | None => JNull end) =
  Ok (join (lit ", ") (map (py_str str_repr) (meanings_of meanings))).
Proof. destruct meanings as [[|m ms]|]; reflexivity. Qed.

Lemma front_of_strings (spelling reading : pystr) :
  front_of str_repr (JStr spelling) (JStr reading) =
  if is_nonempty reading && negb (str_eqb reading spelling)
  then spelling ++ lit " (" ++ reading ++ lit ")"
  else spelling.
Proof. destruct reading; reflexivity. Qed.

Lemma fill_fields_two (n : nat) (spelling reading : json) (text : pystr) :
  2 <= n ->
  fill_fields str_repr (repeat (JStr []) n) spelling reading text =
  Ok (JStr (front_of str_repr spelling reading) :: JStr text ::
      repeat (JStr []) (n - 2)).
Proof.
  intros H; destruct n as [|[|n]]; try lia.
  unfold fill_fields; cbn; now rewrite Nat.sub_0_r.
Qed.

Lemma repeat_empty_strings (n : nat) :
  forallb is_str (repeat (JStr []) n) = true.
Proof. induction n; [reflexivity|exact IHn]. Qed.

Lemma fill_fields_one (spelling reading : json) (text : pystr) :
  fill_fields str_repr (repeat (JStr []) 1) spelling reading text =
  Ok [spelling].
Proof. reflexivity. Qed.

(** The fields of the note for a record, by the number of fields of the
    note type. *)
Definition fields_for (n : nat) (spelling reading text : pystr) : list json :=
  if 2 <=? n
  then JStr (front_of str_repr (JStr spelling) (JStr reading)) :: JStr text ::
       repeat (JStr []) (n - 2)
  else [JStr spelling].

Lemma import_card_record (nt : notetype) (did : nat)
    (spelling : pystr) (spellings readings : list pystr)
    (meanings : option (list json)) (s : state) :
  1 <= nt_fields nt ->
  import_card str_repr nt did
    (record_of (spelling :: spellings) readings meanings) s =
  (Ok Imported,
   imported_state s
     [JArr (map JStr (spelling :: spellings)); JArr (map JStr readings);
      match meanings with Some ms => JArr ms | None => JNull end]
     nt did
     (fields_for (nt_fields nt) spelling (hd [] readings)
        (join (lit ", ") (map (py_str str_repr) (meanings_of meanings))))).
Proof.
  intros Hn.
  unfold import_card, record_of, bind, lift, emit, ret, try_col.
  cbn [truthy negb py_index as_sequence nth_error map trace col].
  rewrite meaning_text_of_list.
  unfold fields_for, imported_state.
  destruct (Nat.leb_spec 2 (nt_fields nt)) as [H2|H2].
  - destruct readings as [|reading readings];
      cbn [map hd nth_error]; rewrite fill_fields_two by exact H2;
      unfold addNote; cbn [note_fields forallb is_str andb];
      rewrite repeat_empty_strings; reflexivity.
  - assert (nt_fields nt = 1) as -> by lia.
    destruct readings as [|reading readings];
      cbn [map hd nth_error]; rewrite fill_fields_one; reflexivity.
Qed.

End Mapping.

(** C2 (the code at the failing input).  An absent or empty record is
    skipped, and so is a record of three sub-arrays whose spelling array is
    empty or absent; but a record with only one or two sub-arrays is not
    skipped: [card_data[1]] (or [card_data[2]]) raises [IndexError], which
    leaves the loop with the counters as they were. *)
Theorem C2_short_record_raises :
  forall (str_repr : pystr -> pystr) (nt : notetype) (did : nat) (s : state),
    import_card str_repr nt did JNull s = (Ok Skipped, s) /\
    import_card str_repr nt did (JArr []) s = (Ok Skipped, s) /\
    (forall readings meanings,
       import_card str_repr nt did (JArr [JArr []; readings; meanings]) s =
       (Ok Skipped,
        mkState (trace s ++ [Print [JArr []; readings; meanings]]) (col s))) /\
    (forall readings meanings,
       import_card str_repr nt did (JArr [JNull; readings; meanings]) s =
       (Ok Skipped,
        mkState (trace s ++ [Print [JNull; readings; meanings]]) (col s))) /\
    (forall x, import_card str_repr nt did (JArr [x]) s = (Raise IndexError, s)) /\
    (forall x y,
       import_card str_repr nt did (JArr [x; y]) s = (Raise IndexError, s)) /\
    (forall x rest c,
       import_loop str_repr nt did (JArr [x] :: rest) c s =
       (c, Raise IndexError, s)) /\
    import_loop str_repr nt did [JArr [JArr [JStr taberu]]] (mkCounters 0 0) s =
    (mkCounters 0 0, Raise IndexError, s).
Proof.
  intros; repeat split.
Qed.

(** C7.  [front] is the first spelling, followed by the first reading in
    parentheses exactly when that reading is not empty and differs from the
    spelling; for a record that is mapped into a note type of at least two
    fields it is what field 0 of the note receives. *)
Theorem C7_front_composition :
  forall (str_repr : pystr -> pystr) (nt : notetype) (did : nat)
         (spelling : pystr) (spellings readings : list pystr)
         (meanings : option (list json)) (s : state),
    let reading := hd [] readings in
    let front := front_of str_repr (JStr spelling) (JStr reading) in
    (reading <> [] /\ reading <> spelling ->
     front = spelling ++ lit " (" ++ reading ++ lit ")") /\
    (reading = [] \/ reading = spelling -> front = spelling) /\
    (2 <= nt_fields nt ->
     exists fields s',
       import_card str_repr nt did
         (record_of (spelling :: spellings) readings meanings) s =
       (Ok Imported, s') /\
       notes (col s') = notes (col s) ++ [mkNote (nt_name nt) did fields] /\
       nth_error fields 0 = Some (JStr front)) /\
    front_of str_repr (JStr taberu) (JStr taberu_kana) =
    [0x98DF; 0x3079; 0x308B; 32; 40; 0x305F; 0x3079; 0x308B; 41]%N /\
    front_of str_repr (JStr taberu) (JStr taberu) = taberu.
Proof.
  intros str_repr nt did spelling spellings readings meanings s reading front.
  split; [|split; [|split; [|split]]].
  - intros [Hne Hdiff]; unfold front; rewrite front_of_strings.
    apply str_eqb_neq in Hdiff; rewrite Hdiff.
    destruct reading; [contradiction|reflexivity].
  - intros [He|He]; unfold front; rewrite front_of_strings, He.
    + reflexivity.
    + now rewrite str_eqb_refl, andb_false_r.
  - intros H2; do 2 eexists; split; [apply import_card_record; lia|].
    unfold imported_state, fields_for; cbn [col notes with_note].
    destruct (Nat.leb_spec 2 (nt_fields nt)); [|lia].
    split; reflexivity.
  - reflexivity.
  - reflexivity.
Qed.

Lemma C7_witness :
  exists fields s',
    import_card quote_repr basic 1 eat (init collection0) = (Ok Imported, s') /\
    notes (col s') = [mkNote (lit "Basic") 1 fields] /\
    nth_error fields 0 =
    Some (JStr [0x98DF; 0x3079; 0x308B; 32; 40; 0x305F; 0x3079; 0x308B; 41]%N).
Proof.
  exact (proj1 (proj2 (proj2
    (C7_front_composition quote_repr basic 1 taberu [] [taberu_kana]
       (Some [JStr (lit "to eat"); JStr (lit "to dine")]) (init collection0))))
    (le_n 2)).
Defined.

(** C8.  The meanings text of a record is the [", "]-join of the string
    forms of its meanings, and empty for an empty or absent meanings array.
    In a note type of two or more fields the note gets [front] in field 0 and
    the meanings text in field 1, the other fields keeping their initial
    empty value; in a note type of one field the note is the bare spelling
    and the meanings text goes nowhere.  (A note type of Anki has at least
    one field.) *)
Theorem C8_meanings_text_and_field_layout :
  forall (str_repr : pystr -> pystr) (nt : notetype) (did : nat)
         (spelling : pystr) (spellings readings : list pystr)
         (meanings : option (list json)) (s : state),
    let text := join (lit ", ") (map (py_str str_repr) (meanings_of meanings)) in
    let front := front_of str_repr (JStr spelling) (JStr (hd [] readings)) in
    meaning_text_of str_repr
      (match meanings with Some ms => JArr ms | None => JNull end) = Ok text /\
    (meanings_of meanings = [] -> text = []) /\
    (1 <= nt_fields nt ->
     exists fields s',
       import_card str_repr nt did
         (record_of (spelling :: spellings) readings meanings) s =
       (Ok Imported, s') /\
       notes (col s') = notes (col s) ++ [mkNote (nt_name nt) did fields] /\
       (2 <= nt_fields nt ->
        fields = JStr front :: JStr text :: repeat (JStr []) (nt_fields nt - 2)) /\
       (nt_fields nt < 2 -> fields = [JStr spelling])) /\
    join (lit ", ") (map (py_str str_repr) [JStr (lit "to eat"); JStr (lit "to dine")]) =
    lit "to eat, to dine".
Proof.
  intros str_repr nt did spelling spellings readings meanings s text front.
  split; [|split; [|split]].
  - apply meaning_text_of_list.
  - intros E; unfold text; now rewrite E.
  - intros H1; do 2 eexists; split; [apply import_card_record; exact H1|].
    unfold imported_state, fields_for; cbn [col notes with_note].
    split; [reflexivity|].
    destruct (Nat.leb_spec 2 (nt_fields nt)); split; intros; (reflexivity || lia).
  - reflexivity.
Qed.

Lemma C8_witness :
  exists fields s',
    import_card quote_repr front_only 1 eat (init collection0) = (Ok Imported, s') /\
    notes (col s') = [mkNote (lit "Front only") 1 fields] /\
    fields = [JStr taberu].
Proof.
  destruct (proj1 (proj2 (proj2
    (C8_meanings_text_and_field_layout quote_repr front_only 1 taberu []
       [taberu_kana] (Some [JStr (lit "to eat"); JStr (lit "to dine")])
       (init collection0)))) (le_n 1))
    as (fields & s' & Hrun & Hnotes & _ & Hone).
  exists fields, s'; split; [exact Hrun|split; [exact Hnotes|]].
  apply Hone; apply le_n.
Defined.

End FieldMapper.

(** ** The import loop: counters and notes *)

Module Writing.
Import Py World JPDBImportDialog Facts Examples.
Open Scope nat_scope.

Section Loop.

Variable str_repr : pystr -> pystr.
Variable nt : notetype.
Variable did : nat.

Let card := import_card str_repr nt did.
Let loop := import_loop str_repr nt did.

(** A record that is skipped, or on which the body raises, leaves the
    collection as it was; an imported record adds exactly one note. *)
Lemma import_card_col (card_data : json) (s : state) :
  match card card_data s with
  | (Ok Imported, s') => exists n, col s' = with_note n (col s)
  | (Ok Skipped, s') => col s' = col s
  | (Raise _, s') => col s' = col s
  end.
Proof.
  subst card; unfold import_card, bind, lift, emit, ret, try_col, addNote.
  destruct (truthy card_data); cbn [negb]; [|reflexivity].
  destruct (py_index card_data 0) as [spelling_arr|]; [|reflexivity].
  destruct (py_index card_data 1) as [reading_arr|]; [|reflexivity].
  destruct (py_index card_data 2) as [meanings_arr|]; [|reflexivity].
  cbn [trace col].
  destruct (truthy spelling_arr); cbn [negb]; [|reflexivity].
  destruct (py_index spelling_arr 0) as [spelling|]; [|reflexivity].
  destruct (if truthy reading_arr then py_index reading_arr 0 else Ok (JStr []))
    as [reading|]; [|reflexivity].
  destruct (meaning_text_of str_repr meanings_arr) as [text|]; [|reflexivity].
  destruct (fill_fields str_repr _ spelling reading text) as [fields|];
    [|reflexivity].
  cbn [col note_fields].
  destruct (forallb is_str fields); [|reflexivity].
  cbn [col]; eexists; reflexivity.
Qed.

Lemma import_loop_app (l1 l2 : list json) (c : counters) (s : state) :
  loop (l1 ++ l2) c s =
  match loop l1 c s with
  | (c1, Ok _, s1) => loop l2 c1 s1
  | (c1, Raise e, s1) => (c1, Raise e, s1)
  end.
Proof.
  subst loop; revert c s; induction l1 as [|x l1 IH]; intros c s.
  - reflexivity.
  - cbn [app import_loop].
    destruct (import_card str_repr nt did x s) as [[[|]|e] s1];
      [apply IH|apply IH|reflexivity].
Qed.

(** The loop invariant: at the point where the loop stands after the
    records [done], [imported + skipped] has grown by [length done] and the
    collection by [imported] notes. *)
Lemma import_loop_invariant (cards : list json) (c : counters) (s : state) :
  let '(c', r, s') := loop cards c s in
  exists done rest s1,
    cards = done ++ rest /\
    loop done c s = (c', Ok tt, s1) /\
    imported c' + skipped c' = imported c + skipped c + length done /\
    imported c <= imported c' /\ skipped c <= skipped c' /\
    length (notes (col s1)) =
    length (notes (col s)) + (imported c' - imported c) /\
    match r with
    | Ok _ => rest = [] /\ s' = s1
    | Raise e => exists card_data rest',
        rest = card_data :: rest' /\ card card_data s1 = (Raise e, s')
    end.
Proof.
  subst loop; revert c s; induction cards as [|x cards IH]; intros c s.
  - cbn [import_loop]; exists [], [], s.
    repeat split; try reflexivity; cbn [length]; lia.
  - cbn [import_loop].
    pose proof (import_card_col x s) as Hcol; subst card.
    destruct (import_card str_repr nt did x s) as [[[|]|e] s1] eqn:Ex.
    + specialize (IH (mkCounters (imported c) (skipped c + 1)) s1).
      destruct (import_loop str_repr nt did cards _ s1) as [[c' r] s'].
      destruct IH as (done & rest & s2 & -> & Hd & Hsum & Hi & Hs & Hn & Hr).
      cbn [imported skipped] in *.
      exists (x :: done), rest, s2.
      cbn [import_loop app length]; rewrite Ex, Hcol in *.
      repeat split; try assumption; try lia.
    + specialize (IH (mkCounters (imported c + 1) (skipped c)) s1).
      destruct (import_loop str_repr nt did cards _ s1) as [[c' r] s'].
      destruct IH as (done & rest & s2 & -> & Hd & Hsum & Hi & Hs & Hn & Hr).
      destruct Hcol as (n & Hcol).
      cbn [imported skipped] in *.
      exists (x :: done), rest, s2.
      cbn [import_loop app length]; rewrite Ex.
      rewrite Hcol in Hn; cbn [with_note notes] in Hn.
      rewrite length_app in Hn; cbn [length] in Hn.
      repeat split; try assumption; try lia.
    + exists [], (x :: cards), s.
      cbn [import_loop app length].
      repeat split; try reflexivity; try lia.
      exists x, cards; split; [reflexivity|exact Ex].
Qed.

End Loop.

(** One pass of the loop, as an equation: a record that passes through the
    body without an exception adds one to exactly one of the counters, an
    exception leaves them as they were at the start of the pass. *)
Lemma import_loop_step (str_repr : pystr -> pystr) (nt : notetype) (did : nat)
    (card_data : json) (rest : list json) (c : counters) (s : state) :
  import_loop str_repr nt did (card_data :: rest) c s =
  match import_card str_repr nt did card_data s with
  | (Ok Skipped, s1) =>
      import_loop str_repr nt did rest
        (mkCounters (imported c) (skipped c + 1)) s1
  | (Ok Imported, s1) =>
      import_loop str_repr nt did rest
        (mkCounters (imported c + 1) (skipped c)) s1
  | (Raise e, s1) => (c, Raise e, s1)
  end.
Proof.
  cbn [import_loop].
  destruct (import_card str_repr nt did card_data s) as [[[|]|e] s1];
    reflexivity.
Qed.

(** A spelling that is not a string reaches a field only through a note
    type with a single field (line 310); [addNote] then refuses the note, and
    neither a note nor a count is added. *)
Lemma numeric_spelling_is_refused (str_repr : pystr -> pystr) (did : nat)
    (rest : list json) (c : counters) (s : state) :
  let card_data := JArr [JArr [JNum 5]; JArr []; JArr []] in
  import_loop str_repr front_only did (card_data :: rest) c s =
  (c, Raise TypeError,
   mkState (trace s ++ [Print [JArr [JNum 5]; JArr []; JArr []]]) (col s)).
Proof. reflexivity. Qed.

End Writing.

(** ** [import_cards]: validation, abort and what is reported *)

Module Pipeline.
Import Py World JPDBClient JPDBImportDialog Facts Resolve Examples Writing.
Open Scope nat_scope.

(** A computation that leaves the Anki collection alone. *)
Definition keeps_col {A} (m : M A) : Prop :=
  forall s, col (snd (m s)) = col s.

Lemma keeps_col_lift {A} (r : pyres A) : keeps_col (lift r).
Proof. intros s; reflexivity. Qed.

Lemma keeps_col_ret {A} (a : A) : keeps_col (ret a).
Proof. intros s; reflexivity. Qed.

Lemma keeps_col_bind {A B} (m : M A) (k : A -> M B) :
  keeps_col m -> (forall a, keeps_col (k a)) -> keeps_col (bind m k).
Proof.
  intros Hm Hk s; unfold bind.
  specialize (Hm s); destruct (m s) as [[a|e] s1]; cbn [snd] in *.
  - now rewrite Hk.
  - exact Hm.
Qed.

Lemma keeps_col_make_request net api_key endpoint data :
  keeps_col (_make_request net api_key endpoint data).
Proof. intros s; unfold _make_request; destruct (net _ _); reflexivity. Qed.

Lemma keeps_col_lookup_vocabulary net api_key pairs :
  keeps_col (lookup_vocabulary net api_key pairs).
Proof.
  unfold lookup_vocabulary.
  apply keeps_col_bind; [apply keeps_col_make_request|].
  intros result; apply keeps_col_bind; [apply keeps_col_lift|].
  intros [|]; [apply keeps_col_lift|apply keeps_col_ret].
Qed.

Lemma keeps_col_lookup_batches net api_key vocab_list batch_size starts cards :
  keeps_col (lookup_batches net api_key vocab_list batch_size starts cards).
Proof.
  revert cards; induction starts as [|i starts IH]; intros cards; cbn.
  - apply keeps_col_ret.
  - apply keeps_col_bind; [apply keeps_col_lift|].
    intros [|p valid_batch]; [apply IH|].
    apply keeps_col_bind; [apply keeps_col_lookup_vocabulary|].
    intros infos; apply keeps_col_bind; [apply keeps_col_lift|].
    intros items; apply IH.
Qed.

Lemma keeps_col_get_deck_cards net api_key deck_id limit batch_size :
  keeps_col (get_deck_cards net api_key deck_id limit batch_size).
Proof.
  unfold get_deck_cards, list_deck_vocabulary.
  apply keeps_col_bind.
  - apply keeps_col_bind; [apply keeps_col_make_request|].
    intros result; apply keeps_col_lift.
  - intros v; apply keeps_col_bind; [apply keeps_col_lift|].
    intros l; apply keeps_col_bind; [apply keeps_col_lift|].
    intros starts; apply keeps_col_lookup_batches.
Qed.

(** The state in which the [try] block is entered (line 253). *)
Definition started (d : dialog) (s : state) : state :=
  mkState (trace s ++
           [SaveConfig (strip (api_key_input d)) (strip (anki_deck_input d))
              (note_type_combo d);
            StatusAppend StartingImport])
          (col s).

(** The state in which [get_deck_cards] is called (line 256). *)
Definition fetching (d : dialog) (s : state) : state :=
  mkState (trace (started d s) ++ [StatusAppend FetchingCards]) (col s).

(** The state in which the loop is entered (line 273), after [cards] were
    retrieved in state [s1]. *)
Definition writing (deck_name : pystr) (cards : list json) (s1 : state) : state :=
  mkState (trace s1 ++ [StatusAppend (Retrieved (length cards))])
          (snd (decks_id deck_name (col s1))).

Section Run.

Variable net : remote.
Variable str_repr : pystr -> pystr.
Variable d : dialog.

Let deck_name := strip (anki_deck_input d).
Let body := import_body net str_repr d deck_name (currentData d)
              (note_type_combo d).

Lemma import_cards_no_deck_name (s : state) :
  jpdb_deck_combo d <> [] -> deck_name = [] ->
  import_cards net str_repr d s =
  (Ok tt, mkState (trace s ++ [ShowWarning PleaseEnterDeckName]) (col s)).
Proof.
  intros Hc Hd; unfold import_cards; fold deck_name; rewrite Hd.
  destruct (jpdb_deck_combo d); [contradiction|reflexivity].
Qed.

Lemma import_cards_started (s : state) :
  jpdb_deck_combo d <> [] -> deck_name <> [] ->
  import_cards net str_repr d s =
  match body (started d s) with
  | (Ok _, s') => (Ok tt, s')
  | (Raise e, s') => import_handler e s'
  end.
Proof.
  intros Hc Hd; unfold import_cards; fold deck_name.
  destruct (jpdb_deck_combo d); [contradiction|]; cbn [length Nat.eqb].
  destruct deck_name eqn:E; [contradiction|].
  unfold bind, settings_saved, emit, started; cbn [trace col].
  rewrite <- app_assoc; cbn [app]; fold deck_name; rewrite E; reflexivity.
Qed.

(** With CONFIG_FILE: when the two checks pass, [save_settings()] runs; if
    it raises, the exception leaves [import_cards] and nothing else has
    happened, and if it returns, the call goes on as [import_cards]. *)
Lemma import_cards_with_file_run dev f (s : state) :
  import_cards_with_file net str_repr dev d f s =
  match jpdb_deck_combo d, deck_name with
  | _ :: _, _ :: _ =>
      match save_settings dev d f with
      | (Ok _, f') => (import_cards net str_repr d s, f')
      | (Raise e, f') => (Raise e, s, f')
      end
  | _, _ => (import_cards net str_repr d s, f)
  end.
Proof.
  unfold import_cards_with_file, import_cards; fold deck_name.
  destruct (jpdb_deck_combo d); cbn [length Nat.eqb]; [reflexivity|].
  destruct deck_name; [reflexivity|].
  destruct (save_settings dev d f) as [[[]|e] f']; reflexivity.
Qed.

(** Resolution fails: the body raises where [get_deck_cards] raised. *)
Lemma body_resolving_fails api_key (s : state) e s1 :
  jpdb_client d = Some api_key ->
  get_deck_cards net api_key (currentData d) 1000 100 (fetching d s) =
    (Raise e, s1) ->
  body (started d s) = (Raise e, s1).
Proof.
  intros Hk Hg; subst body; unfold import_body, bind, emit, ret.
  rewrite Hk; unfold fetching, started in *; cbn [trace col] in *.
  now rewrite Hg.
Qed.

(** Resolution succeeds: the body goes on to the deck and the note type. *)
Lemma body_resolved api_key (s : state) cards s1 :
  jpdb_client d = Some api_key ->
  get_deck_cards net api_key (currentData d) 1000 100 (fetching d s) =
    (Ok cards, s1) ->
  body (started d s) =
  match by_name (note_type_combo d) (col s) with
  | None =>
      (Ok tt,
       mkState (trace (writing deck_name cards s1) ++
                [ShowWarning (NoteTypeNotFound (note_type_combo d))])
               (col (writing deck_name cards s1)))
  | Some note_type =>
      match import_loop str_repr note_type (fst (decks_id deck_name (col s)))
              cards (mkCounters 0 0) (writing deck_name cards s1) with
      | (c, Ok _, s') =>
          (Ok tt,
           mkState (trace s' ++
                    [ColReset; MwReset; StatusAppend ImportComplete;
                     StatusAppend (ImportedCards (imported c));
                     StatusAppend (SkippedCards (skipped c));
                     ShowInfo (SuccessfullyImported (imported c) deck_name)])
                   (col s'))
      | (_, Raise e, s') => (Raise e, s')
      end
  end.
Proof.
  intros Hk Hg.
  pose proof (keeps_col_get_deck_cards net api_key (currentData d) 1000 100
                (fetching d s)) as Hcol.
  rewrite Hg in Hcol; cbn [snd fetching col] in Hcol.
  subst body; unfold import_body, bind, emit, ret, with_col, read_col.
  rewrite Hk; unfold fetching, started in *; cbn [trace col] in *.
  rewrite Hg; cbn [trace col]; unfold writing; rewrite Hcol.
  unfold by_name, decks_id.
  destruct (index_of deck_name (decks (col s))); cbn [fst snd models col];
    (destruct (find _ (models (col s))) as [note_type|]; [|reflexivity]);
    (destruct (import_loop _ _ _ _ _ _) as [[c [[]|e]] s']; [|reflexivity]);
    cbn [trace col]; rewrite <- !app_assoc; reflexivity.
Qed.

End Run.

Lemma decks_id_keeps (name : pystr) (c : collection) :
  notes (snd (decks_id name c)) = notes c /\
  models (snd (decks_id name c)) = models c.
Proof. unfold decks_id; destruct (index_of name (decks c)); split; reflexivity. Qed.

Lemma import_handler_run (e : exc) (s : state) :
  import_handler e s =
  (Ok tt,
   mkState (trace s ++ [StatusAppend (ErrorDuringImport e);
                        ShowWarning (ImportFailed e)]) (col s)).
Proof.
  unfold import_handler, bind, emit; cbn [trace col].
  now rewrite <- app_assoc.
Qed.

(** With an unknown note type the body of the [try] never touches the notes
    or the note types, however the resolution goes. *)
Lemma body_unknown_note_type net str_repr d (s : state) :
  by_name (note_type_combo d) (col s) = None ->
  let s' := snd (import_body net str_repr d (strip (anki_deck_input d))
                   (currentData d) (note_type_combo d) (started d s)) in
  notes (col s') = notes (col s) /\ models (col s') = models (col s).
Proof.
  intros Hn.
  destruct (jpdb_client d) as [api_key|] eqn:Hk.
  - destruct (get_deck_cards net api_key (currentData d) 1000 100 (fetching d s))
      as [[cards|e] s1] eqn:Hg.
    + rewrite (body_resolved net str_repr d api_key s cards s1 Hk Hg), Hn.
      pose proof (keeps_col_get_deck_cards net api_key (currentData d) 1000 100
                    (fetching d s)) as Hcol.
      rewrite Hg in Hcol; cbn [snd fetching col] in Hcol.
      cbn [snd col writing]; rewrite Hcol; apply decks_id_keeps.
    + rewrite (body_resolving_fails net str_repr d api_key s e s1 Hk Hg).
      pose proof (keeps_col_get_deck_cards net api_key (currentData d) 1000 100
                    (fetching d s)) as Hcol.
      rewrite Hg in Hcol; cbn [snd fetching col] in Hcol.
      cbn [snd]; rewrite Hcol; split; reflexivity.
  - unfold import_body, bind, emit, raise; rewrite Hk; split; reflexivity.
Qed.

(** C1, where it fails: in a run with a note type name that the collection
    does not know, the deck is listed and looked up over the network and the
    target deck is created before the missing note type is noticed. *)
Lemma C1_counterexample :
  let d := dialog0 (lit "Nope") in
  let net := server (JArr (ids 3)) (fun _ => eat) None in
  let final := snd (import_cards net quote_repr d (init collection0)) in
  by_name (note_type_combo d) collection0 = None /\
  net_calls (trace final) =
    [vocabulary_request (lit "secret") (JNum 7);
     lookup_request (lit "secret") (ids 3)] /\
  decks collection0 = [lit "Default"] /\
  decks (col final) = [lit "Default"; lit "JPDB Import"] /\
  last (trace final) ColReset = ShowWarning (NoteTypeNotFound (lit "Nope")).
Proof. cbv zeta; repeat split; vm_compute; reflexivity. Qed.

(** C1 (amended).  Once decks are loaded:
    - an empty target deck name ends the run with a warning before any
      request is issued and with the collection untouched;
    - a note type name that does not resolve ends the run without any note
      written and with the note types untouched, and, when the resolution of
      the deck succeeded, with the warning that the note type was not found;
      but this is noticed only after [get_deck_cards] has issued its requests
      and after the target deck was obtained or created. *)
Theorem C1_validation_of_deck_name_and_note_type :
  forall (net : remote) (str_repr : pystr -> pystr) (d : dialog) (s : state),
    jpdb_deck_combo d <> [] ->
    let deck_name := strip (anki_deck_input d) in
    (deck_name = [] ->
     import_cards net str_repr d s =
     (Ok tt, mkState (trace s ++ [ShowWarning PleaseEnterDeckName]) (col s))) /\
    (deck_name <> [] ->
     by_name (note_type_combo d) (col s) = None ->
     (let final := snd (import_cards net str_repr d s) in
      notes (col final) = notes (col s) /\
      models (col final) = models (col s)) /\
     (forall api_key cards s1,
        jpdb_client d = Some api_key ->
        get_deck_cards net api_key (currentData d) 1000 100 (fetching d s) =
          (Ok cards, s1) ->
        import_cards net str_repr d s =
        (Ok tt,
         mkState (trace s1 ++
                  [StatusAppend (Retrieved (length cards));
                   ShowWarning (NoteTypeNotFound (note_type_combo d))])
                 (snd (decks_id deck_name (col s)))))).
Proof.
  intros net str_repr d s Hc deck_name; split.
  - intros Hd; now apply import_cards_no_deck_name.
  - intros Hd Hn; split.
    + cbv zeta; rewrite (import_cards_started net str_repr d s Hc Hd).
      pose proof (body_unknown_note_type net str_repr d s Hn) as H.
      cbv zeta in H.
      destruct (import_body _ _ _ _ _ _ _) as [[[]|e] s']; cbn [snd] in *.
      * exact H.
      * rewrite import_handler_run; exact H.
    + intros api_key cards s1 Hk Hg.
      rewrite (import_cards_started net str_repr d s Hc Hd).
      rewrite (body_resolved net str_repr d api_key s cards s1 Hk Hg), Hn.
      pose proof (keeps_col_get_deck_cards net api_key (currentData d) 1000 100
                    (fetching d s)) as Hcol.
      rewrite Hg in Hcol; cbn [snd fetching col] in Hcol.
      unfold writing; cbn [trace col]; rewrite Hcol, <- app_assoc; reflexivity.
Qed.

Lemma C1_witness :
  let d := dialog0 (lit "Nope") in
  let net := server (JArr (ids 3)) (fun _ => eat) None in
  let final := snd (import_cards net quote_repr d (init collection0)) in
  notes (col final) = [] /\ models (col final) = [basic; front_only].
Proof.
  exact (proj1 (proj2
    (C1_validation_of_deck_name_and_note_type
       (server (JArr (ids 3)) (fun _ => eat) None) quote_repr
       (dialog0 (lit "Nope")) (init collection0)
       (fun H => @eq_ind (list (pystr * json)) [(lit "Core", JNum 7)]
                   (fun l => match l with [] => False | _ :: _ => True end)
                   I [] H))
    ltac:(vm_compute; discriminate) eq_refl)).
Defined.

(** A lookup record with a single sub-array. *)
Definition short_record : json := JArr [JArr [JStr taberu]].

(** A server for a deck of three ids whose records are absent, except for a
    short record at the pair [[k, k]]. *)
Definition short_at (k : Z) : remote :=
  server (JArr (ids 3))
    (fun pair => if py_eq pair (JArr [JNum k; JNum k]) then short_record
                 else JNull)
    None.

(** C6, where it fails: two runs that fail in the loop, one with
    [skipped = 2] and one with [skipped = 1] at the point of failure, leave
    the very same trace and collection, so what is reported does not tell the
    counters. *)
Lemma C6_counterexample :
  let d := dialog0 (lit "Basic") in
  let s := init collection0 in
  fst (get_deck_cards (short_at 3) (lit "secret") (JNum 7) 1000 100 (fetching d s)) =
    Ok [JNull; JNull; short_record] /\
  fst (get_deck_cards (short_at 2) (lit "secret") (JNum 7) 1000 100 (fetching d s)) =
    Ok [JNull; short_record; JNull] /\
  fst (import_loop quote_repr basic 1 [JNull; JNull; short_record]
         (mkCounters 0 0) s) = (mkCounters 0 2, Raise IndexError) /\
  fst (import_loop quote_repr basic 1 [JNull; short_record; JNull]
         (mkCounters 0 0) s) = (mkCounters 0 1, Raise IndexError) /\
  import_cards (short_at 3) quote_repr d s =
  import_cards (short_at 2) quote_repr d s /\
  skipn 5 (trace (snd (import_cards (short_at 3) quote_repr d s))) =
  [StatusAppend (Retrieved 3);
   StatusAppend (ErrorDuringImport IndexError);
   ShowWarning (ImportFailed IndexError)].
Proof. cbv zeta; repeat split; vm_compute; reflexivity. Qed.

(** C6 (amended).  When the body of the [try] raises, the run ends there:
    the trace and the collection are those of the point of failure, followed
    only by the error in the status log and in a warning; nothing is undone
    and no counter is reported.  The body raises where the resolution raises
    (the collection is then untouched), and where the loop raises: the
    records before the failing one have been counted and their notes stay in
    the collection, the records after it are never looked at. *)
Theorem C6_abort_keeps_writes_and_reports_the_error :
  forall (net : remote) (str_repr : pystr -> pystr) (d : dialog) (s : state),
    jpdb_deck_combo d <> [] ->
    strip (anki_deck_input d) <> [] ->
    let deck_name := strip (anki_deck_input d) in
    let body := import_body net str_repr d deck_name (currentData d)
                  (note_type_combo d) in
    (forall e s1,
       body (started d s) = (Raise e, s1) ->
       import_cards net str_repr d s =
       (Ok tt,
        mkState (trace s1 ++ [StatusAppend (ErrorDuringImport e);
                              ShowWarning (ImportFailed e)]) (col s1))) /\
    (forall api_key e s1,
       jpdb_client d = Some api_key ->
       get_deck_cards net api_key (currentData d) 1000 100 (fetching d s) =
         (Raise e, s1) ->
       body (started d s) = (Raise e, s1) /\ col s1 = col s) /\
    (forall api_key cards s1 note_type c e s2,
       jpdb_client d = Some api_key ->
       get_deck_cards net api_key (currentData d) 1000 100 (fetching d s) =
         (Ok cards, s1) ->
       by_name (note_type_combo d) (col s) = Some note_type ->
       import_loop str_repr note_type (fst (decks_id deck_name (col s))) cards
         (mkCounters 0 0) (writing deck_name cards s1) = (c, Raise e, s2) ->
       body (started d s) = (Raise e, s2) /\
       exists done card_data rest,
         cards = done ++ card_data :: rest /\
         imported c + skipped c = length done /\
         length (notes (col s2)) = length (notes (col s)) + imported c /\
         forall rest',
           import_loop str_repr note_type (fst (decks_id deck_name (col s)))
             (done ++ card_data :: rest') (mkCounters 0 0)
             (writing deck_name cards s1) = (c, Raise e, s2)).
Proof.
  intros net str_repr d s Hc Hd deck_name body.
  split; [|split].
  - intros e s1 Hb.
    rewrite (import_cards_started net str_repr d s Hc Hd).
    fold deck_name body; rewrite Hb; apply import_handler_run.
  - intros api_key e s1 Hk Hg; split.
    + now apply (body_resolving_fails net str_repr d api_key).
    + pose proof (keeps_col_get_deck_cards net api_key (currentData d) 1000 100
                    (fetching d s)) as Hcol.
      now rewrite Hg in Hcol.
  - intros api_key cards s1 note_type c e s2 Hk Hg Hn Hl; split.
    + unfold body, deck_name.
      rewrite (body_resolved net str_repr d api_key s cards s1 Hk Hg), Hn.
      fold deck_name; now rewrite Hl.
    + pose proof (import_loop_invariant str_repr note_type
                    (fst (decks_id deck_name (col s))) cards (mkCounters 0 0)
                    (writing deck_name cards s1)) as H.
      rewrite Hl in H.
      destruct H as (done & rest & s3 & Hcards & Hdone & Hsum & _ & _ & Hnotes
                     & card_data & rest' & -> & Hcard).
      exists done, card_data, rest'.
      pose proof (import_card_col str_repr note_type
                    (fst (decks_id deck_name (col s))) card_data s3) as Hcol3.
      rewrite Hcard in Hcol3.
      pose proof (keeps_col_get_deck_cards net api_key (currentData d) 1000 100
                    (fetching d s)) as Hcol.
      rewrite Hg in Hcol; cbn [snd fetching col] in Hcol.
      cbn [imported skipped] in *.
      split; [exact Hcards|split; [lia|split]].
      * rewrite Hcol3, Hnotes; cbn [writing col].
        rewrite Hcol, (proj1 (decks_id_keeps deck_name (col s))); lia.
      * intros rest''; rewrite import_loop_app, Hdone.
        cbn [import_loop]; now rewrite Hcard.
Qed.

Lemma C6_witness :
  let net := server (JArr (ids 2))
               (fun pair => if py_eq pair (JArr [JNum 2; JNum 2])
                            then short_record else eat) None in
  let d := dialog0 (lit "Basic") in
  exists s2,
    import_cards net quote_repr d (init collection0) =
    (Ok tt,
     mkState (trace s2 ++ [StatusAppend (ErrorDuringImport IndexError);
                           ShowWarning (ImportFailed IndexError)]) (col s2)) /\
    length (notes (col s2)) = 1.
Proof.
  intros net d.
  pose proof (C6_abort_keeps_writes_and_reports_the_error net quote_repr d
                (init collection0)
                ltac:(discriminate) ltac:(vm_compute; discriminate))
    as (Habort & _ & Hloop).
  destruct (Hloop (lit "secret") [eat; short_record]
              (snd (get_deck_cards net (lit "secret") (JNum 7) 1000 100
                      (fetching d (init collection0))))
              basic (mkCounters 1 0) IndexError
              (snd (import_loop quote_repr basic 1 [eat; short_record]
                      (mkCounters 0 0)
                      (writing (lit "JPDB Import") [eat; short_record]
                         (snd (get_deck_cards net (lit "secret") (JNum 7) 1000 100
                                 (fetching d (init collection0)))))))
              eq_refl ltac:(vm_compute; reflexivity) eq_refl
              ltac:(vm_compute; reflexivity))
    as (Hbody & done & card_data & rest & _ & _ & Hnotes & _).
  eexists; split; [exact (Habort _ _ Hbody)|exact Hnotes].
Defined.

End Pipeline.

(** ** The counters of a run *)

Module Counting.
Import Py World JPDBClient JPDBImportDialog Facts Examples Writing Pipeline.
Open Scope nat_scope.

(** C10.  In every run that reaches the loop (decks loaded, a deck name
    entered, the deck resolved to [cards], the note type found), the loop is
    entered with [imported = 0] and [skipped = 0]: what [import_cards] does
    is what the loop does from these two values, and the numbers it reports
    at the end are the counters so reached.  Each record that passes through
    the body without an exception adds one to exactly one of the counters;
    so wherever the loop stands, after the records [done],
    [imported + skipped = len(done)], whether it then ends (and
    [imported + skipped = len(cards)] is what is reported) or is left by an
    exception on the next record.  [imported] is also the number of notes
    added. *)
Theorem C10_counters_count_processed_records :
  forall (net : remote) (str_repr : pystr -> pystr),
    (forall (nt : notetype) (did : nat) (card_data : json) (rest : list json)
            (c : counters) (s : state),
       import_loop str_repr nt did (card_data :: rest) c s =
       match import_card str_repr nt did card_data s with
       | (Ok Skipped, s1) =>
           import_loop str_repr nt did rest
             (mkCounters (imported c) (skipped c + 1)) s1
       | (Ok Imported, s1) =>
           import_loop str_repr nt did rest
             (mkCounters (imported c + 1) (skipped c)) s1
       | (Raise e, s1) => (c, Raise e, s1)
       end) /\
    (forall (d : dialog) (s : state) (api_key : pystr) (cards : list json)
            (s1 : state) (nt : notetype),
       jpdb_deck_combo d <> [] ->
       strip (anki_deck_input d) <> [] ->
       jpdb_client d = Some api_key ->
       get_deck_cards net api_key (currentData d) 1000 100 (fetching d s) =
         (Ok cards, s1) ->
       by_name (note_type_combo d) (col s) = Some nt ->
       let deck_name := strip (anki_deck_input d) in
       let did := fst (decks_id deck_name (col s)) in
       let entered := writing deck_name cards s1 in
       let '(c, r, s') :=
         import_loop str_repr nt did cards (mkCounters 0 0) entered in
       import_cards net str_repr d s =
         match r with
         | Ok _ =>
             (Ok tt,
              mkState (trace s' ++
                       [ColReset; MwReset; StatusAppend ImportComplete;
                        StatusAppend (ImportedCards (imported c));
                        StatusAppend (SkippedCards (skipped c));
                        ShowInfo (SuccessfullyImported (imported c) deck_name)])
                      (col s'))
         | Raise e => import_handler e s'
         end /\
       exists done rest s2,
         cards = done ++ rest /\
         import_loop str_repr nt did done (mkCounters 0 0) entered =
           (c, Ok tt, s2) /\
         imported c + skipped c = length done /\
         length (notes (col s2)) = length (notes (col s)) + imported c /\
         match r with
         | Ok _ => rest = [] /\ s' = s2
         | Raise e => exists card_data rest',
             rest = card_data :: rest' /\
             import_card str_repr nt did card_data s2 = (Raise e, s')
         end).
Proof.
  intros net str_repr; split; [intros; apply import_loop_step|].
  intros d s api_key cards s1 nt Hc Hd Hk Hg Hn deck_name did entered.
  pose proof (import_loop_invariant str_repr nt did cards (mkCounters 0 0)
                entered) as H.
  pose proof (import_cards_started net str_repr d s Hc Hd) as Hrun.
  rewrite (body_resolved net str_repr d api_key s cards s1 Hk Hg), Hn in Hrun.
  fold deck_name did entered in Hrun.
  destruct (import_loop str_repr nt did cards (mkCounters 0 0) entered)
    as [[c r] s'].
  destruct H as (done & rest & s2 & Hcards & Hdone & Hsum & _ & _ & Hnotes & Hr).
  cbn [imported skipped] in Hsum, Hnotes.
  split.
  - rewrite Hrun; destruct r as [[]|e]; reflexivity.
  - exists done, rest, s2.
    split; [exact Hcards|split; [exact Hdone|split; [lia|split; [|exact Hr]]]].
    pose proof (keeps_col_get_deck_cards net api_key (currentData d) 1000 100
                  (fetching d s)) as Hcol.
    rewrite Hg in Hcol; cbn [snd fetching col] in Hcol.
    rewrite Hnotes; subst entered; cbn [writing col].
    rewrite Hcol, (proj1 (decks_id_keeps deck_name (col s))); lia.
Qed.

Lemma C10_witness :
  let net := server (JArr (ids 3))
               (fun pair => if py_eq pair (JArr [JNum 2; JNum 2]) then JNull
                            else eat) None in
  exists s',
    import_cards net quote_repr (dialog0 (lit "Basic")) (init collection0) =
    (Ok tt,
     mkState (trace s' ++
              [ColReset; MwReset; StatusAppend ImportComplete;
               StatusAppend (ImportedCards 2); StatusAppend (SkippedCards 1);
               ShowInfo (SuccessfullyImported 2 (lit "JPDB Import"))])
             (col s')) /\
    length (notes (col s')) = 2.
Proof.
  intros net.
  pose proof (proj2 (C10_counters_count_processed_records net quote_repr)
                (dialog0 (lit "Basic")) (init collection0) (lit "secret")
                [eat; JNull; eat]
                (snd (get_deck_cards net (lit "secret") (JNum 7) 1000 100
                        (fetching (dialog0 (lit "Basic")) (init collection0))))
                basic
                ltac:(discriminate) ltac:(vm_compute; discriminate) eq_refl
                ltac:(vm_compute; reflexivity) eq_refl) as H.
  cbv zeta in H.
  match type of H with
  | context [import_loop ?a ?b ?c ?d ?e ?f] =>
      set (l := import_loop a b c d e f) in H; vm_compute in l; subst l
  end.
  cbv beta iota in H; destruct H as [H _].
  eexists; split; [exact H|reflexivity].
Defined.

End Counting.

(** ** [import_cards] as a whole: what a run does to the collection and what
       it reports *)

Module ImportRun.
Import Py World JPDBClient JPDBImportDialog Facts Resolve Examples Writing Pipeline.
Open Scope nat_scope.

Lemma py_setitem_length (l l' : list json) (i : nat) (x : json) :
  py_setitem l i x = Ok l' -> length l' = length l.
Proof.
  unfold py_setitem; destruct (Nat.ltb_spec i (length l)) as [Hi|]; [|discriminate].
  intros [= <-].
  rewrite length_app; cbn [length].
  change (match l with [] => [] | _ :: l0 => skipn i l0 end) with (skipn (S i) l).
  rewrite length_firstn, length_skipn; lia.
Qed.

Lemma fill_fields_length str_repr (fields fields' : list json)
    (spelling reading : json) (text : pystr) :
  fill_fields str_repr fields spelling reading text = Ok fields' ->
  length fields' = length fields.
Proof.
  unfold fill_fields; destruct (2 <=? length fields).
  - destruct (py_setitem fields 0 _) as [f1|] eqn:E1; cbn [pbind]; [|discriminate].
    intros E2; apply py_setitem_length in E1, E2; congruence.
  - apply py_setitem_length.
Qed.

(** A note as the loop writes it for the note type [nt] and the deck [did]. *)
Definition written (nt : notetype) (did : nat) (n : note) : Prop :=
  note_model n = nt_name nt /\ note_did n = did /\
  length (note_fields n) = nt_fields nt /\
  forallb is_str (note_fields n) = true.

Lemma import_card_writes str_repr nt did (card_data : json) (s : state) :
  match import_card str_repr nt did card_data s with
  | (Ok Imported, s') =>
      exists n, col s' = with_note n (col s) /\ written nt did n
  | (Ok Skipped, s') => col s' = col s
  | (Raise _, s') => col s' = col s
  end.
Proof.
  unfold import_card, bind, lift, emit, ret, try_col, addNote.
  destruct (truthy card_data); cbn [negb]; [|reflexivity].
  destruct (py_index card_data 0) as [spelling_arr|]; [|reflexivity].
  destruct (py_index card_data 1) as [reading_arr|]; [|reflexivity].
  destruct (py_index card_data 2) as [meanings_arr|]; [|reflexivity].
  cbn [trace col].
  destruct (truthy spelling_arr); cbn [negb]; [|reflexivity].
  destruct (py_index spelling_arr 0) as [spelling|]; [|reflexivity].
  destruct (if truthy reading_arr then py_index reading_arr 0 else Ok (JStr []))
    as [reading|]; [|reflexivity].
  destruct (meaning_text_of str_repr meanings_arr) as [text|]; [|reflexivity].
  destruct (fill_fields str_repr _ spelling reading text) as [fields|] eqn:E;
    [|reflexivity].
  cbn [col note_fields].
  destruct (forallb is_str fields) eqn:Hstr; [|reflexivity].
  cbn [col]; eexists; split; [reflexivity|].
  apply fill_fields_length in E; rewrite repeat_length in E.
  split; [reflexivity|split; [reflexivity|split; [exact E|exact Hstr]]].
Qed.

(** The loop only appends notes, all of them [written]; it never touches the
    decks, the note types or the notes that were there. *)
Lemma import_loop_appends str_repr nt did (cards : list json)
    (c0 : counters) (s : state) :
  let '(c, r, s') := import_loop str_repr nt did cards c0 s in
  exists added,
    col s' = mkCollection (decks (col s)) (models (col s))
               (notes (col s) ++ added) /\
    imported c = imported c0 + length added /\
    Forall (written nt did) added.
Proof.
  revert c0 s; induction cards as [|x cards IH]; intros c0 s.
  - cbn [import_loop]; exists []; rewrite app_nil_r.
    split; [now destruct (col s)|split; [cbn; lia|constructor]].
  - cbn [import_loop].
    pose proof (import_card_writes str_repr nt did x s) as Hx.
    destruct (import_card str_repr nt did x s) as [[[|]|e] s1].
    + specialize (IH (mkCounters (imported c0) (skipped c0 + 1)) s1).
      destruct (import_loop str_repr nt did cards _ s1) as [[c r] s'].
      destruct IH as (added & Hcol & Hi & Hw).
      exists added; rewrite Hx in Hcol; auto.
    + specialize (IH (mkCounters (imported c0 + 1) (skipped c0)) s1).
      destruct (import_loop str_repr nt did cards _ s1) as [[c r] s'].
      destruct IH as (added & Hcol & Hi & Hw).
      destruct Hx as (n & Hn & Hwn).
      exists (n :: added); rewrite Hn in Hcol; cbn [with_note decks models notes] in Hcol.
      rewrite <- app_assoc in Hcol; cbn [imported length] in *.
      split; [exact Hcol|split; [lia|now constructor]].
    + exists []; rewrite app_nil_r, Hx.
      split; [now destruct (col s)|split; [cbn; lia|constructor]].
Qed.

Lemma index_of_nth (name : pystr) (l : list pystr) (i : nat) :
  index_of name l = Some i -> nth_error l i = Some name.
Proof.
  revert i; induction l as [|x l IH]; intros i; cbn [index_of]; [discriminate|].
  destruct (str_eqb name x) eqn:E.
  - intros [= <-]; apply str_eqb_eq in E; now subst.
  - destruct (index_of name l) as [j|]; [|discriminate].
    intros [= <-]; cbn; now apply IH.
Qed.

Lemma by_name_name (name : pystr) (c : collection) (nt : notetype) :
  by_name name c = Some nt -> nt_name nt = name /\ In nt (models c).
Proof.
  unfold by_name; intros H; apply find_some in H as [Hin He].
  apply str_eqb_eq in He; auto.
Qed.

(** How a run of [import_cards] for the dialog [d] may change a collection
    [c] into [c']: the note types stay, the notes that were there stay, and
    notes are appended, each with the handle that [decks.id] returned for
    the entered deck name, of the chosen note type, with as many fields as
    that note type has, and with a string in every field. *)
Definition extended_by (d : dialog) (c c' : collection) : Prop :=
  let deck_name := strip (anki_deck_input d) in
  models c' = models c /\
  exists added,
    notes c' = notes c ++ added /\
    Forall (fun n =>
              note_did n = fst (decks_id deck_name c) /\
              note_model n = note_type_combo d /\
              forallb is_str (note_fields n) = true /\
              exists nt, by_name (note_type_combo d) c = Some nt /\
                         length (note_fields n) = nt_fields nt)
           added.

Lemma extended_by_refl (d : dialog) (c : collection) : extended_by d c c.
Proof.
  split; [reflexivity|].
  exists []; split; [now rewrite app_nil_r|constructor].
Qed.

Lemma extended_by_deck (d : dialog) (c : collection) :
  extended_by d c (snd (decks_id (strip (anki_deck_input d)) c)).
Proof.
  destruct (decks_id_keeps (strip (anki_deck_input d)) c) as (Hn & Hm).
  split; [exact Hm|].
  exists []; split; [now rewrite app_nil_r|constructor].
Qed.

Lemma body_extends net str_repr (d : dialog) (s : state) :
  extended_by d (col s)
    (col (snd (import_body net str_repr d (strip (anki_deck_input d))
                 (currentData d) (note_type_combo d) (started d s)))).
Proof.
  destruct (jpdb_client d) as [api_key|] eqn:Hk.
  2:{ unfold import_body, bind, emit, raise; rewrite Hk; apply extended_by_refl. }
  pose proof (keeps_col_get_deck_cards net api_key (currentData d) 1000 100
                (fetching d s)) as Hcol.
  destruct (get_deck_cards net api_key (currentData d) 1000 100 (fetching d s))
    as [[cards|e] s1] eqn:Hg; cbn [snd fetching col] in Hcol.
  2:{ rewrite (body_resolving_fails net str_repr d api_key s e s1 Hk Hg).
      cbn [snd]; rewrite Hcol; apply extended_by_refl. }
  rewrite (body_resolved net str_repr d api_key s cards s1 Hk Hg).
  destruct (by_name (note_type_combo d) (col s)) as [nt|] eqn:Hn.
  2:{ cbn [snd col writing]; rewrite Hcol; apply extended_by_deck. }
  pose proof (import_loop_appends str_repr nt (fst (decks_id (strip (anki_deck_input d)) (col s)))
                cards (mkCounters 0 0) (writing (strip (anki_deck_input d)) cards s1)) as Hloop.
  destruct (import_loop _ _ _ _ _ _) as [[c r] s2].
  destruct Hloop as (added & Hc2 & _ & Hw).
  cbn [writing col] in Hc2; rewrite Hcol in Hc2.
  destruct (decks_id_keeps (strip (anki_deck_input d)) (col s)) as (Hnotes & Hm).
  assert (Hfinal : extended_by d (col s) (col s2)).
  { rewrite Hc2; split; [exact Hm|].
    exists added; cbn [notes decks]; split; [now rewrite Hnotes|].
    apply by_name_name in Hn as Hname; destruct Hname as [Hname _].
    eapply Forall_impl; [|exact Hw].
    intros n (Hmodel & Hdid & Hlen & Hstr).
    split; [exact Hdid|split; [congruence|split; [exact Hstr|now exists nt]]]. }
  destruct r as [[]|e]; exact Hfinal.
Qed.

(** Once [save_settings()] has returned, no exception leaves
    [import_cards]: whatever the dialog holds, whatever the server answers
    and whatever the records look like, the call returns. *)
Lemma import_cards_returns :
  forall (net : remote) (str_repr : pystr -> pystr) (d : dialog) (s : state),
    fst (import_cards net str_repr d s) = Ok tt.
Proof.
  intros net str_repr d s.
  destruct (jpdb_deck_combo d) as [|item items] eqn:Hc.
  - unfold import_cards; now rewrite Hc.
  - assert (Hne : jpdb_deck_combo d <> []) by (rewrite Hc; discriminate).
    destruct (strip (anki_deck_input d)) as [|ch deck_name] eqn:Hd.
    + now rewrite (import_cards_no_deck_name net str_repr d s Hne Hd).
    + assert (Hdn : strip (anki_deck_input d) <> []) by (rewrite Hd; discriminate).
      rewrite (import_cards_started net str_repr d s Hne Hdn).
      destruct (import_body _ _ _ _ _ _ _) as [[[]|e] s']; [reflexivity|].
      now rewrite import_handler_run.
Qed.

Lemma import_cards_extends net str_repr (d : dialog) (s : state) :
  extended_by d (col s) (col (snd (import_cards net str_repr d s))).
Proof.
  destruct (jpdb_deck_combo d) as [|item items] eqn:Hc.
  - unfold import_cards; rewrite Hc; apply extended_by_refl.
  - assert (Hne : jpdb_deck_combo d <> []) by (rewrite Hc; discriminate).
    destruct (strip (anki_deck_input d)) as [|ch deck_name] eqn:Hd.
    + rewrite (import_cards_no_deck_name net str_repr d s Hne Hd).
      apply extended_by_refl.
    + assert (Hdn : strip (anki_deck_input d) <> []) by (rewrite Hd; discriminate).
      rewrite (import_cards_started net str_repr d s Hne Hdn).
      pose proof (body_extends net str_repr d s) as H.
      destruct (import_body _ _ _ _ _ _ _) as [[[]|e] s']; [exact H|].
      now rewrite import_handler_run.
Qed.

(** X1.  The one exception that leaves [import_cards] is an exception of
    [save_settings()] at line 246, which stands before the [try]: the call
    raises exactly when decks are loaded, a deck name is entered and the
    configuration cannot be written, and then nothing else has happened
    (nothing shown, nothing requested, the collection as it was).  In every
    other case the call returns, whatever the server answers and whatever
    the records look like. *)
Theorem import_cards_raises_only_at_save_settings :
  forall (net : remote) (str_repr : pystr -> pystr) (dev : JPDBConfig.device)
         (d : dialog) (f : JPDBConfig.file) (s : state),
    match import_cards_with_file net str_repr dev d f s with
    | (Ok _, _, _) =>
        jpdb_deck_combo d = [] \/ strip (anki_deck_input d) = [] \/
        fst (save_settings dev d f) = Ok tt
    | (Raise e, s', f') =>
        jpdb_deck_combo d <> [] /\ strip (anki_deck_input d) <> [] /\
        save_settings dev d f = (Raise e, f') /\ s' = s
    end.
Proof.
  intros net str_repr dev d f s.
  rewrite import_cards_with_file_run.
  pose proof (import_cards_returns net str_repr d s) as Hr.
  destruct (import_cards net str_repr d s) as [r s1]; cbn [fst] in Hr; subst r.
  destruct (jpdb_deck_combo d) as [|item items]; [now left|].
  destruct (strip (anki_deck_input d)) as [|ch name]; [now right; left|].
  destruct (save_settings dev d f) as [[[]|e] f']; [now right; right|].
  split; [discriminate|split; [discriminate|split; reflexivity]].
Qed.

(** X2.  Whatever happens in a call of [import_cards], also when it fails or
    is left at [save_settings()], the collection only gains notes: the note
    types (names and numbers of fields) are as they were, the notes that
    were there stay as they are, and every note that is added carries the
    deck handle that [decks.id] returned for the entered name, is of the
    selected note type, has exactly as many fields as that note type, and
    holds a string in every field. *)
Theorem import_cards_only_appends_notes :
  forall (net : remote) (str_repr : pystr -> pystr) (dev : JPDBConfig.device)
         (d : dialog) (f : JPDBConfig.file) (s : state),
    extended_by d (col s)
      (col (snd (fst (import_cards_with_file net str_repr dev d f s)))).
Proof.
  intros net str_repr dev d f s.
  rewrite import_cards_with_file_run.
  pose proof (import_cards_extends net str_repr d s) as H.
  destruct (jpdb_deck_combo d) as [|item items]; [exact H|].
  destruct (strip (anki_deck_input d)) as [|ch name] eqn:Ed; [exact H|].
  destruct (save_settings dev d f) as [[[]|e] f']; [exact H|].
  apply extended_by_refl.
Qed.







End ImportRun.

(** ** [get_deck_cards]: order of the result, bounds and failures *)

Module Resolution.
Import Py World JPDBClient Facts Resolve Batching Sequencing Examples.
Open Scope nat_scope.

Lemma slice_to_map {A B} (f : A -> B) (l : list A) (stop : Z) :
  slice_to (map f l) stop = map f (slice_to l stop).
Proof.
  unfold slice_to; rewrite length_map.
  destruct (stop <? 0)%Z; apply firstn_map.
Qed.

Lemma concat_lookups (batches : list (list (list json))) :
  concat (lookups batches) = flat_map normalized (concat batches).
Proof.
  unfold lookups; induction batches as [|b batches IH]; [reflexivity|].
  cbn [map filter concat]; rewrite flat_map_app, <- IH.
  destruct (flat_map normalized b); reflexivity.
Qed.

Lemma collected_pointwise (f : json -> json) (n : nat) (calls : list (list json)) :
  collected (fun _ pairs => Some (map f pairs)) n calls = map f (concat calls).
Proof.
  revert n; induction calls as [|c calls IH]; intros n; [reflexivity|].
  rewrite collected_cons, IH; cbn [info concat]; now rewrite map_app.
Qed.

(** The run of [get_deck_cards] against a server that lists [entries] and
    answers every lookup, for any [limit]. *)
Lemma runs_get_deck_cards_sliced net api_key answer (deck_id : json)
    (limit batch_size : Z) (entries : list (list json)) (s : state) :
  answers net api_key answer ->
  lists net api_key deck_id (length (net_calls (trace s))) entries ->
  (0 < batch_size)%Z ->
  let calls := lookups (chunks (slice_to entries limit) (Z.to_nat batch_size)) in
  runs (get_deck_cards net api_key deck_id limit batch_size) s
    (NetCall (vocabulary_request api_key deck_id) ::
     map NetCall (map (lookup_request api_key) calls)) (col s)
    (Ok (collected answer (S (length (net_calls (trace s)))) calls)).
Proof.
  intros Hans (body & Hnet & Hget) Hb calls.
  destruct (py_range_chunks (slice_to entries limit) batch_size Hb)
    as (starts & Hr & Hc).
  pose proof (runs_lookup_batches net api_key answer Hans
                (slice_to entries limit) (Z.to_nat batch_size) starts []
                (mkState (trace s ++ [NetCall (vocabulary_request api_key deck_id)])
                   (col s))) as H.
  cbn [trace col] in H; rewrite Hc in H; fold calls in H.
  rewrite net_calls_app, length_app in H.
  cbn [net_calls flat_map app length] in H.
  rewrite Nat.add_1_r in H.
  unfold runs in *; cbn [trace] in H; rewrite <- app_assoc in H; cbn [app] in H.
  unfold get_deck_cards, list_deck_vocabulary, bind, _make_request.
  unfold vocabulary_request in Hnet; rewrite Hnet.
  unfold lift; rewrite Hget.
  unfold py_slice_to, as_sequence.
  rewrite slice_to_map, length_map, Hr.
  exact H.
Qed.

(** X4.  Batching is invisible in the result.  Against a server that answers
    a lookup with one record [f pair] per requested pair, [get_deck_cards]
    returns the records of the normalized id entries it retained, in the
    order of the deck listing, whatever the (positive) batch size; the
    retained entries are [entries[:limit]], also for a negative [limit]. *)
Theorem get_deck_cards_preserves_deck_order :
  forall (net : remote) (api_key : pystr) (deck_id : json)
         (limit batch_size : Z) (entries : list (list json))
         (f : json -> json) (s : state),
    (0 < batch_size)%Z ->
    lists net api_key deck_id (length (net_calls (trace s))) entries ->
    answers net api_key (fun _ pairs => Some (map f pairs)) ->
    fst (get_deck_cards net api_key deck_id limit batch_size s) =
    Ok (map f (flat_map normalized (slice_to entries limit))).
Proof.
  intros net api_key deck_id limit batch_size entries f s Hb Hlists Hans.
  pose proof (runs_get_deck_cards_sliced net api_key _ deck_id limit batch_size
                entries s Hans Hlists Hb) as H.
  cbv zeta in H; unfold runs in H; rewrite H; cbn [fst].
  rewrite collected_pointwise, concat_lookups, chunks_cover by lia.
  reflexivity.
Qed.

Lemma get_deck_cards_preserves_deck_order_witness :
  let entries := [[JNum 1]; []; [JNum 2; JNum 20; JNum 200]; [JNum 3; JNum 30]] in
  let net := server (JArr (map JArr entries)) (fun pair => JArr [pair]) None in
  fst (get_deck_cards net (lit "secret") (JNum 7) (-1) 2 (init collection0)) =
  Ok [JArr [JArr [JNum 1; JNum 1]]; JArr [JArr [JNum 2; JNum 20]]].
Proof.
  intros entries net.
  exact (get_deck_cards_preserves_deck_order net (lit "secret") (JNum 7)
           (-1)%Z 2%Z entries (fun pair => JArr [pair]) (init collection0)
           eq_refl
           (ResolveDeck.server_lists _ _ _ _ _ entries eq_refl)
           (ResolveDeck.server_answers _ _ _)).
Defined.

(** X5.  The batch size is the step of a [range]: with [batch_size = 0]
    the resolution raises [ValueError] once the deck has been listed, and
    with a negative [batch_size] it returns no record at all; in both cases
    the listing is the only request. *)
Theorem get_deck_cards_nonpositive_batch_size :
  forall (net : remote) (api_key : pystr) (deck_id : json)
         (limit batch_size : Z) (body vocabulary : json)
         (retained : list json) (s : state),
    net (length (net_calls (trace s))) (vocabulary_request api_key deck_id) =
      UrlOk body ->
    py_getitem body (lit "vocabulary") = Ok vocabulary ->
    py_slice_to vocabulary limit = Ok retained ->
    (batch_size <= 0)%Z ->
    get_deck_cards net api_key deck_id limit batch_size s =
    ((if (batch_size =? 0)%Z then Raise ValueError else Ok []),
     mkState (trace s ++ [NetCall (vocabulary_request api_key deck_id)]) (col s)).
Proof.
  intros net api_key deck_id limit batch_size body vocabulary retained s
         Hnet Hget Hslice Hb.
  unfold get_deck_cards, list_deck_vocabulary, bind, _make_request.
  unfold vocabulary_request in Hnet; rewrite Hnet.
  unfold lift; rewrite Hget, Hslice; unfold py_range.
  destruct (Z.eqb_spec batch_size 0) as [->|Hne]; [reflexivity|].
  destruct (Z.ltb_spec batch_size 0) as [_|]; [reflexivity|lia].
Qed.

Lemma get_deck_cards_nonpositive_batch_size_witness :
  get_deck_cards (server (JArr (ids 3)) (fun _ => eat) None) (lit "secret")
    (JNum 7) 1000 0 (init collection0) =
  (Raise ValueError,
   mkState [NetCall (vocabulary_request (lit "secret") (JNum 7))] collection0).
Proof.
  exact (get_deck_cards_nonpositive_batch_size
           (server (JArr (ids 3)) (fun _ => eat) None) (lit "secret") (JNum 7)
           1000%Z 0%Z (JObj [(lit "vocabulary", JArr (ids 3))]) (JArr (ids 3))
           (ids 3) (init collection0) eq_refl eq_refl eq_refl (Z.le_refl 0)).
Defined.

(** X6.  A listing that fails ends the resolution at once, with the error of
    the request: an HTTP error carries its status and body, a connection
    error its reason, and a response without a [vocabulary] key (or that is
    not an object) raises on the key access.  No lookup is requested. *)
Theorem get_deck_cards_listing_failure :
  forall (net : remote) (api_key : pystr) (deck_id : json)
         (limit batch_size : Z) (s : state),
    let request := vocabulary_request api_key deck_id in
    let failed := fun e =>
      get_deck_cards net api_key deck_id limit batch_size s =
      (Raise e, mkState (trace s ++ [NetCall request]) (col s)) in
    match net (length (net_calls (trace s))) request with
    | UrlHTTPError code error_msg => failed (HTTPException code error_msg)
    | UrlURLError reason => failed (ConnectionException reason)
    | UrlBadBody => failed JSONDecodeError
    | UrlOk (JObj members) =>
        dict_get (lit "vocabulary") members = None -> failed KeyError
    | UrlOk _ => failed TypeError
    end.
Proof.
  intros net api_key deck_id limit batch_size s request failed.
  subst failed request; cbv beta.
  unfold get_deck_cards, list_deck_vocabulary, bind, _make_request, lift,
    vocabulary_request, py_getitem.
  destruct (net _ _) as [[| | | | |members]| | |]; try reflexivity.
  intros ->; reflexivity.
Qed.

Lemma get_deck_cards_listing_failure_witness :
  get_deck_cards (fun _ _ => UrlOk (JObj [(lit "decks", JArr [])]))
    (lit "secret") (JNum 7) 1000 100 (init collection0) =
  (Raise KeyError,
   mkState [NetCall (vocabulary_request (lit "secret") (JNum 7))] collection0).
Proof.
  exact (get_deck_cards_listing_failure
           (fun _ _ => UrlOk (JObj [(lit "decks", JArr [])]))
           (lit "secret") (JNum 7) 1000%Z 100%Z (init collection0) eq_refl).
Defined.

(** An event of the network. *)
Definition is_request (e : event) : Prop :=
  match e with NetCall _ => True | _ => False end.

Lemma requests_lookup_vocabulary net api_key pairs :
  emits is_request (lookup_vocabulary net api_key pairs).
Proof.
  unfold lookup_vocabulary.
  apply emits_bind; [apply emits_make_request; exact I|].
  intros result; apply emits_bind; [apply emits_lift|].
  intros [|]; [apply emits_lift|apply emits_ret].
Qed.

Lemma requests_lookup_batches net api_key vocab_list batch_size starts cards :
  emits is_request
    (lookup_batches net api_key vocab_list batch_size starts cards).
Proof.
  revert cards; induction starts as [|i starts IH]; intros cards; cbn.
  - apply emits_ret.
  - apply emits_bind; [apply emits_lift|].
    intros [|p valid_batch]; [apply IH|].
    apply emits_bind; [apply requests_lookup_vocabulary|].
    intros infos; apply emits_bind; [apply emits_lift|intros; apply IH].
Qed.

Lemma requests_get_deck_cards net api_key deck_id limit batch_size :
  emits is_request (get_deck_cards net api_key deck_id limit batch_size).
Proof.
  unfold get_deck_cards, list_deck_vocabulary.
  apply emits_bind.
  - apply emits_bind; [|intros; apply emits_lift].
    apply emits_make_request; exact I.
  - intros v; apply emits_bind; [apply emits_lift|].
    intros l; apply emits_bind; [apply emits_lift|].
    intros starts; apply requests_lookup_batches.
Qed.

(** X7.  Resolving a deck is network traffic and nothing else: whatever the
    server answers, [get_deck_cards] leaves the collection as it is and adds
    only requests to the trace (no dialog, no status line, no print). *)
Theorem get_deck_cards_only_talks_to_the_server :
  forall (net : remote) (api_key : pystr) (deck_id : json)
         (limit batch_size : Z) (s : state),
    let s' := snd (get_deck_cards net api_key deck_id limit batch_size s) in
    col s' = col s /\
    exists requests, trace s' = trace s ++ map NetCall requests.
Proof.
  intros net api_key deck_id limit batch_size s s'; split.
  - apply Pipeline.keeps_col_get_deck_cards.
  - destruct (requests_get_deck_cards net api_key deck_id limit batch_size s)
      as (evs & c & r & H & F).
    unfold runs in H; subst s'; rewrite H; cbn [snd trace].
    exists (net_calls evs); f_equal.
    clear H; induction F as [|e evs He _ IH]; [reflexivity|].
    destruct e; cbn in He; try contradiction.
    cbn [net_calls flat_map map app]; f_equal; exact IH.
Qed.

(** X8.  No partial result: [get_deck_cards] returns cards only if every
    request it issued was answered with a decodable 2xx response. *)
Theorem get_deck_cards_returns_only_if_all_answered :
  forall (net : remote) (api_key : pystr) (deck_id : json)
         (limit batch_size : Z) (s : state) (cards : list json),
    let run := get_deck_cards net api_key deck_id limit batch_size in
    fst (run s) = Ok cards ->
    forall i r, nth_error (issued run s) i = Some r ->
      exists body, net (length (net_calls (trace s)) + i) r = UrlOk body.
Proof.
  intros net api_key deck_id limit batch_size s cards run Hok i r Hr.
  destruct (sequential_get_deck_cards net api_key deck_id limit batch_size s)
    as (evs & c & res & H & F).
  fold run in H; rewrite (issued_runs _ _ _ _ _ H) in Hr.
  unfold runs in H; rewrite H in Hok; cbn [fst] in Hok; subst res.
  apply (F i r); [|exact Hr].
  cbn [settled]; apply nth_error_Some; congruence.
Qed.

Lemma get_deck_cards_returns_only_if_all_answered_witness :
  let net := server (JArr (ids 3)) (fun _ => eat) None in
  exists body, net 1 (lookup_request (lit "secret") (ids 3)) = UrlOk body.
Proof.
  intros net.
  exact (get_deck_cards_returns_only_if_all_answered net (lit "secret") (JNum 7)
           1000%Z 100%Z (init collection0) [eat; eat; eat] eq_refl
           1 (lookup_request (lit "secret") (ids 3)) eq_refl).
Defined.

End Resolution.

(** ** [JPDBConfig]: what is saved is what is loaded *)

Module Config.
Import Py Facts.

(** The value [load] assigns for [key] from a JSON object. *)
Definition setting (members : list (pystr * json)) (key default : pystr) : json :=
  match dict_get key members with
  | Some v => v
  | None => JStr default
  end.

Lemma get_or_object (members : list (pystr * json)) (key default : pystr) :
  JPDBConfig.get_or (JObj members) key default = Ok (setting members key default).
Proof.
  unfold JPDBConfig.get_or, setting, py_contains, py_getitem; cbn [pbind].
  destruct (dict_get key members); reflexivity.
Qed.

(** The configuration of a new [JPDBConfig()] when there is nothing to
    load. *)
Definition defaults : JPDBConfig.config :=
  JPDBConfig.mkConfig (JStr []) (JStr (lit "JPDB Import")) (JStr (lit "Basic")).

(** X9.  Saving and loading.  [save] returns exactly when the file can be
    opened and written and no setting holds a surrogate; then loading the
    file gives back the saved configuration, whatever the loading
    configuration held before, and a new [JPDBConfig()] starts from it.
    With a surrogate in a setting, [save] raises [UnicodeEncodeError] and
    leaves a file that cannot be loaded: [load] changes nothing and a new
    [JPDBConfig()] holds the defaults.  When the file cannot be opened,
    [save] raises [OSError] and the file is as it was. *)
Theorem load_after_save :
  forall (dev : JPDBConfig.device) (saved current : JPDBConfig.config)
         (old : JPDBConfig.file),
    (fst (JPDBConfig.save dev saved old) = Ok tt <->
     dev = JPDBConfig.Accepts /\
     JPDBConfig.encodable (JPDBConfig.document saved) = true) /\
    match JPDBConfig.save dev saved old with
    | (Ok _, f) =>
        JPDBConfig.load current f = saved /\ JPDBConfig.init f = saved
    | (Raise e, f) =>
        match dev with
        | JPDBConfig.Accepts =>
            e = UnicodeEncodeError /\
            JPDBConfig.load current f = current /\
            JPDBConfig.init f = defaults
        | JPDBConfig.Refuses => e = OSError /\ f = old
        | JPDBConfig.Breaks remains => e = OSError /\ f = remains
        end
    end.
Proof.
  intros dev [a d n] current old; unfold JPDBConfig.save.
  destruct dev as [| |remains]; cbn [fst].
  - destruct (JPDBConfig.encodable _) eqn:E; cbn [fst]; split.
    + split; [intros _; split; reflexivity|reflexivity].
    + split; reflexivity.
    + split; [discriminate|intros [_ H]; discriminate].
    + repeat split.
  - split; [split; [discriminate|intros [H _]; discriminate]|split; reflexivity].
  - split; [split; [discriminate|intros [H _]; discriminate]|split; reflexivity].
Qed.

(** X10.  A file that holds a JSON object decides all three settings,
    whatever they were before: a key that is present gives its value, a
    missing key the default ([''], ['JPDB Import'], ['Basic']).  A missing or
    unreadable file changes nothing, and [load] never fails. *)
Theorem load_object_or_defaults :
  forall (current : JPDBConfig.config) (members : list (pystr * json)),
    JPDBConfig.load current (JPDBConfig.Holds (JObj members)) =
    JPDBConfig.mkConfig
      (setting members (lit "api_key") [])
      (setting members (lit "deck_name") (lit "JPDB Import"))
      (setting members (lit "note_type") (lit "Basic")) /\
    JPDBConfig.load current JPDBConfig.Missing = current /\
    JPDBConfig.load current JPDBConfig.Unreadable = current.
Proof.
  intros current members; split; [|split; reflexivity].
  unfold JPDBConfig.load; now rewrite !get_or_object.
Qed.

(** X11.  Loading is idempotent for every file content, also one on which
    it gives up half-way: loading the same file again changes nothing
    more. *)
Theorem load_idempotent :
  forall (current : JPDBConfig.config) (f : JPDBConfig.file),
    JPDBConfig.load (JPDBConfig.load current f) f = JPDBConfig.load current f.
Proof.
  intros current [|data|]; try reflexivity.
  unfold JPDBConfig.load.
  destruct (JPDBConfig.get_or data (lit "api_key") []) as [a|]; [|reflexivity].
  destruct (JPDBConfig.get_or data (lit "deck_name") (lit "JPDB Import"))
    as [d|]; [|reflexivity].
  destruct (JPDBConfig.get_or data (lit "note_type") (lit "Basic"));
    reflexivity.
Qed.

End Config.

(** ** [import_cards]: the order of events in a run *)

Module ImportTrace.
Import Py World JPDBClient JPDBImportDialog Facts Resolve Examples Pipeline.
Open Scope nat_scope.

(** An event that is not a request. *)
Definition is_local (e : event) : Prop :=
  match e with NetCall _ => False | _ => True end.

Lemma local_no_requests (evs : list event) :
  Forall is_local evs -> net_calls evs = [].
Proof.
  induction 1 as [|e evs He _ IH]; [reflexivity|].
  destruct e; cbn in He; try contradiction; exact IH.
Qed.

Lemma local_import_card str_repr nt did (card_data : json) :
  emits is_local (import_card str_repr nt did card_data).
Proof.
  unfold import_card.
  destruct (negb (truthy card_data)); [apply emits_ret|].
  apply emits_bind; [apply emits_lift|intros spelling_arr].
  apply emits_bind; [apply emits_lift|intros reading_arr].
  apply emits_bind; [apply emits_lift|intros meanings_arr].
  apply emits_bind; [apply emits_emit; exact I|intros _].
  destruct (negb (truthy spelling_arr)); [apply emits_ret|].
  apply emits_bind; [apply emits_lift|intros spelling].
  apply emits_bind; [apply emits_lift|intros reading].
  apply emits_bind; [apply emits_lift|intros text].
  apply emits_bind; [apply emits_lift|intros fields].
  apply emits_bind; [apply emits_try_col|intros _; apply emits_ret].
Qed.

Lemma local_import_loop str_repr nt did (cards : list json)
    (c : counters) (s : state) :
  exists evs,
    trace (snd (import_loop str_repr nt did cards c s)) = trace s ++ evs /\
    Forall is_local evs.
Proof.
  revert c s; induction cards as [|x cards IH]; intros c s.
  - exists []; split; [cbn; now rewrite app_nil_r|constructor].
  - cbn [import_loop].
    destruct (local_import_card str_repr nt did x s) as (evs1 & c1 & r & H & F1).
    unfold runs in H; rewrite H.
    destruct r as [[|]|e].
    + destruct (IH (mkCounters (imported c) (skipped c + 1))
                   (mkState (trace s ++ evs1) c1)) as (evs2 & -> & F2).
      exists (evs1 ++ evs2); cbn [trace]; split;
        [now rewrite app_assoc|now apply Forall_app].
    + destruct (IH (mkCounters (imported c + 1) (skipped c))
                   (mkState (trace s ++ evs1) c1)) as (evs2 & -> & F2).
      exists (evs1 ++ evs2); cbn [trace]; split;
        [now rewrite app_assoc|now apply Forall_app].
    + exists evs1; split; [reflexivity|exact F1].
Qed.

(** The requests of the body of the [try]: those of the one call of
    [get_deck_cards], if there is a client. *)
Definition body_requests (net : remote) (d : dialog) (s : state) : list request :=
  match jpdb_client d with
  | Some api_key =>
      issued (get_deck_cards net api_key (currentData d) 1000 100) (fetching d s)
  | None => []
  end.

Lemma body_trace net str_repr (d : dialog) (s : state) :
  exists evs,
    trace (snd (import_body net str_repr d (strip (anki_deck_input d))
                  (currentData d) (note_type_combo d) (started d s))) =
    trace (fetching d s) ++ evs /\
    net_calls evs = body_requests net d s.
Proof.
  unfold body_requests.
  destruct (jpdb_client d) as [api_key|] eqn:Hk.
  2:{ exists []; split; [|reflexivity].
      unfold import_body, bind, emit, raise; rewrite Hk.
      cbn [snd trace fetching started]; now rewrite app_nil_r. }
  destruct (Resolution.requests_get_deck_cards net api_key (currentData d)
              1000 100 (fetching d s)) as (evs1 & c1 & r & H & F1).
  rewrite (issued_runs _ _ _ _ _ H); unfold runs in H.
  destruct r as [cards|e].
  2:{ rewrite (body_resolving_fails net str_repr d api_key s e _ Hk H).
      exists evs1; split; reflexivity. }
  rewrite (body_resolved net str_repr d api_key s cards _ Hk H).
  destruct (by_name (note_type_combo d) (col s)) as [nt|].
  2:{ exists (evs1 ++ [StatusAppend (Retrieved (length cards));
                       ShowWarning (NoteTypeNotFound (note_type_combo d))]).
      cbn [snd trace writing]; rewrite net_calls_app, <- !app_assoc.
      split; [reflexivity|apply app_nil_r]. }
  match goal with |- context [import_loop ?r ?n ?i ?cs ?c0 ?w] =>
    destruct (local_import_loop r n i cs c0 w) as (evs2 & Ht & F2);
    destruct (import_loop r n i cs c0 w) as [[c res] s2]
  end.
  cbn [snd] in Ht; cbn [trace writing] in Ht.
  apply local_no_requests in F2.
  destruct res as [[]|e]; cbn [snd trace]; rewrite Ht.
  - exists (evs1 ++ [StatusAppend (Retrieved (length cards))] ++ evs2 ++
            [ColReset; MwReset; StatusAppend ImportComplete;
             StatusAppend (ImportedCards (imported c));
             StatusAppend (SkippedCards (skipped c));
             ShowInfo (SuccessfullyImported (imported c)
                         (strip (anki_deck_input d)))]).
    rewrite !net_calls_app, F2, <- !app_assoc.
    split; [reflexivity|apply app_nil_r].
  - exists (evs1 ++ [StatusAppend (Retrieved (length cards))] ++ evs2).
    rewrite !net_calls_app, F2, <- !app_assoc.
    split; [reflexivity|apply app_nil_r].
Qed.

(** The trace of a run that passes the two checks on the dialog. *)
Lemma import_cards_trace net str_repr (d : dialog) (s : state) :
  jpdb_deck_combo d <> [] -> strip (anki_deck_input d) <> [] ->
  exists evs,
    trace (snd (import_cards net str_repr d s)) = trace (fetching d s) ++ evs /\
    net_calls evs = body_requests net d s.
Proof.
  intros Hc Hd; rewrite (import_cards_started net str_repr d s Hc Hd).
  destruct (body_trace net str_repr d s) as (evs & Ht & Hn).
  destruct (import_body _ _ _ _ _ _ _) as [[[]|e] s'].
  - exists evs; split; [exact Ht|exact Hn].
  - rewrite import_handler_run; cbn [snd trace] in *; rewrite Ht.
    exists (evs ++ [StatusAppend (ErrorDuringImport e);
                    ShowWarning (ImportFailed e)]).
    rewrite net_calls_app, Hn, <- app_assoc.
    split; [reflexivity|apply app_nil_r].
Qed.

Lemma fetching_requests (d : dialog) (s : state) :
  net_calls (trace (fetching d s)) = net_calls (trace s).
Proof.
  unfold fetching, started; cbn [trace].
  rewrite !net_calls_app; cbn; now rewrite !app_nil_r.
Qed.

Lemma import_cards_issued net str_repr (d : dialog) (s : state) :
  issued (import_cards net str_repr d) s =
  match jpdb_deck_combo d, strip (anki_deck_input d) with
  | _ :: _, _ :: _ => body_requests net d s
  | _, _ => []
  end.
Proof.
  unfold issued.
  destruct (jpdb_deck_combo d) as [|item items] eqn:Hc.
  - unfold import_cards; rewrite Hc; cbn [length Nat.eqb emit snd trace].
    rewrite net_calls_app; apply skipn_length_app.
  - assert (Hne : jpdb_deck_combo d <> []) by (rewrite Hc; discriminate).
    destruct (strip (anki_deck_input d)) as [|ch name] eqn:Hd.
    + rewrite (import_cards_no_deck_name net str_repr d s Hne Hd).
      cbn [snd trace]; rewrite net_calls_app; apply skipn_length_app.
    + assert (Hdn : strip (anki_deck_input d) <> [])
        by (rewrite Hd; discriminate).
      destruct (import_cards_trace net str_repr d s Hne Hdn)
        as (evs & Ht & Hn).
      rewrite Ht, net_calls_app, fetching_requests, Hn; apply skipn_length_app.
Qed.

Lemma import_cards_issued_good net str_repr (d : dialog) (s : state) api_key :
  jpdb_client d = Some api_key ->
  Forall (good_request api_key (currentData d))
    (issued (import_cards net str_repr d) s).
Proof.
  intros Hk; rewrite import_cards_issued; unfold body_requests; rewrite Hk.
  destruct (jpdb_deck_combo d); [constructor|].
  destruct (strip (anki_deck_input d)); [constructor|].
  eapply emits_issued; [|apply emits_get_deck_cards].
  intros r H; exact H.
Qed.

(** X12.  All the network traffic of an import is that of one call of
    [get_deck_cards] for the selected deck, with the limit 1000 and batches
    of 100, made with the client that loaded the decks: nothing is requested
    when a check on the dialog fails, and nothing once the records are being
    written.  Every request is the listing of the deck or a lookup of a
    non-empty list of id pairs, and carries the key of that client. *)
Theorem import_cards_requests :
  forall (net : remote) (str_repr : pystr -> pystr) (d : dialog) (s : state),
    issued (import_cards net str_repr d) s =
    match jpdb_deck_combo d, strip (anki_deck_input d), jpdb_client d with
    | _ :: _, _ :: _, Some api_key =>
        issued (get_deck_cards net api_key (currentData d) 1000 100)
          (fetching d s)
    | _, _, _ => []
    end /\
    forall api_key, jpdb_client d = Some api_key ->
      Forall (good_request api_key (currentData d))
        (issued (import_cards net str_repr d) s).
Proof.
  intros net str_repr d s; split.
  - rewrite import_cards_issued; unfold body_requests.
    destruct (jpdb_deck_combo d), (strip (anki_deck_input d)),
      (jpdb_client d); reflexivity.
  - intros api_key; apply import_cards_issued_good.
Qed.

(** X13.  An import that passes the checks on the dialog first saves the
    settings: the API key and the deck name without surrounding white space
    and the selected note type.  If [save_settings()] returns, the file holds
    them, a [JPDBConfig()] created afterwards has exactly these, and this
    happened before the first request and whether or not the import then
    succeeds; the call returns.  If [save_settings()] raises, the exception
    leaves [import_cards] and nothing else has happened: nothing shown,
    nothing requested, the collection as it was. *)
Theorem import_cards_saves_settings_first :
  forall (net : remote) (str_repr : pystr -> pystr) (dev : JPDBConfig.device)
         (d : dialog) (f : JPDBConfig.file) (s : state),
    jpdb_deck_combo d <> [] -> strip (anki_deck_input d) <> [] ->
    match save_settings dev d f with
    | (Ok _, f') =>
        (exists s' rest,
           import_cards_with_file net str_repr dev d f s = (Ok tt, s', f') /\
           trace s' =
           trace s ++ SaveConfig (strip (api_key_input d))
                        (strip (anki_deck_input d)) (note_type_combo d) ::
                      StatusAppend StartingImport ::
                      StatusAppend FetchingCards :: rest) /\
        f' = JPDBConfig.Holds (JPDBConfig.document (settings d)) /\
        JPDBConfig.init f' = settings d
    | (Raise e, f') =>
        import_cards_with_file net str_repr dev d f s = (Raise e, s, f')
    end.
Proof.
  intros net str_repr dev d f s Hc Hd.
  rewrite import_cards_with_file_run.
  destruct (jpdb_deck_combo d) as [|item items] eqn:Ec; [contradiction|].
  destruct (strip (anki_deck_input d)) as [|ch name] eqn:Ed; [contradiction|].
  destruct (save_settings dev d f) as [[[]|e] f'] eqn:Es; [|reflexivity].
  split.
  - rewrite <- Ec in Hc.
    destruct (import_cards_trace net str_repr d s Hc) as (evs & Ht & _);
      [rewrite Ed; discriminate|].
    pose proof (ImportRun.import_cards_returns net str_repr d s) as Hr.
    destruct (import_cards net str_repr d s) as [r s'].
    cbn [fst snd] in *; subst r.
    exists s', evs; split; [reflexivity|].
    rewrite Ht; unfold fetching, started; cbn [trace].
    now rewrite Ed, <- !app_assoc.
  - unfold save_settings, JPDBConfig.save in Es.
    destruct dev; [|discriminate|discriminate].
    destruct (JPDBConfig.encodable _); [|discriminate].
    injection Es as <-; split; reflexivity.
Qed.

Lemma import_cards_saves_settings_first_witness :
  exists s' rest,
    import_cards_with_file (fun _ _ => UrlURLError (lit "timed out"))
      quote_repr JPDBConfig.Accepts
      (mkDialog (lit " secret ") [(lit "Core", JNum 7)] 0
         (lit "JPDB Import ") (lit "Basic") (Some (lit "old")))
      JPDBConfig.Missing (init collection0) =
    (Ok tt, s',
     JPDBConfig.Holds
       (JObj [(lit "api_key", JStr (lit "secret"));
              (lit "deck_name", JStr (lit "JPDB Import"));
              (lit "note_type", JStr (lit "Basic"))])) /\
    trace s' =
    SaveConfig (lit "secret") (lit "JPDB Import") (lit "Basic") ::
    StatusAppend StartingImport :: StatusAppend FetchingCards :: rest.
Proof.
  exact (proj1 (import_cards_saves_settings_first
                  (fun _ _ => UrlURLError (lit "timed out")) quote_repr
                  JPDBConfig.Accepts
                  (mkDialog (lit " secret ") [(lit "Core", JNum 7)] 0
                     (lit "JPDB Import ") (lit "Basic") (Some (lit "old")))
                  JPDBConfig.Missing (init collection0)
                  ltac:(discriminate) ltac:(vm_compute; discriminate))).
Defined.

End ImportTrace.

(** ** [load_jpdb_decks]: the deck list, failures, and the import after it *)

Module DeckList.
Import Py World JPDBClient JPDBImportDialog DeckLoading Facts Resolve Examples.
Open Scope nat_scope.

(** The request of [get_deck_list]. *)
Definition decks_request (api_key : pystr) : request :=
  mkRequest (lit "list-user-decks") api_key
    (JObj [(lit "fields", JArr [JStr (lit "id"); JStr (lit "name")])]).

(** What [get_deck_list] returns or raises for the response to its
    request. *)
Definition listing (response : url_result) : pyres json :=
  match response with
  | UrlOk body => py_getitem body (lit "decks")
  | UrlBadBody => Raise JSONDecodeError
  | UrlHTTPError code error_msg => Raise (HTTPException code error_msg)
  | UrlURLError reason => Raise (ConnectionException reason)
  end.

Lemma get_deck_list_run net api_key (s : state) :
  get_deck_list net api_key s =
  (listing (net (length (net_calls (trace s))) (decks_request api_key)),
   mkState (trace s ++ [NetCall (decks_request api_key)]) (col s)).
Proof.
  unfold get_deck_list, bind, _make_request, lift, listing, decks_request.
  destruct (net _ _); reflexivity.
Qed.

Lemma core_events_app (l m : list ui_event) :
  core_events (l ++ m) = core_events l ++ core_events m.
Proof. unfold core_events; apply flat_map_app. Qed.

(** The session after the request of a load with a non-empty key, by the
    outcome [r] of [get_deck_list]. *)
Definition loaded (qstring : json -> pyres pystr) (u : session)
    (api_key : pystr) (r : pyres json) : session :=
  let log2 := log u ++ [Status LoadingDecks; Core (NetCall (decks_request api_key))] in
  let failed items e :=
    mkSession (with_decks (dlg u) api_key items) (log2 ++ load_failed e)
      (store u) in
  match r with
  | Raise e => failed [] e
  | Ok decks =>
      match py_iter decks with
      | Raise e => failed [] e
      | Ok entries =>
          match add_decks qstring entries [] with
          | (items, Raise e) => failed items e
          | (items, Ok _) =>
              match py_len decks with
              | Raise e => failed items e
              | Ok n =>
                  mkSession (with_decks (dlg u) api_key items)
                    (log2 ++ [Status (LoadedDecks n)]) (store u)
              end
          end
      end
  end.

Lemma load_jpdb_decks_loaded net qstring (u : session) :
  strip (api_key_input (dlg u)) <> [] ->
  load_jpdb_decks net qstring u =
  loaded qstring u (strip (api_key_input (dlg u)))
    (listing (net (length (net_calls (core_events (log u))))
                (decks_request (strip (api_key_input (dlg u)))))).
Proof.
  intros Hk; unfold load_jpdb_decks, loaded.
  destruct (strip (api_key_input (dlg u))) as [|ch key] eqn:E; [contradiction|].
  rewrite get_deck_list_run; cbn [trace col].
  rewrite skipn_length_app, core_events_app; cbn [core_events flat_map map app].
  rewrite app_nil_r, <- !app_assoc; cbn [app].
  destruct (listing _) as [decks|e]; [|reflexivity].
  destruct (py_iter decks) as [entries|e]; [|reflexivity].
  destruct (add_decks qstring entries []) as [items [[]|e]]; [|reflexivity].
  destruct (py_len decks); reflexivity.
Qed.

(** The item a deck entry [[id, name, ...]] becomes; an entry with fewer
    than two elements is passed over. *)
Definition deck_item (entry : list json) : list (pystr * json) :=
  match entry with
  | deck_id :: JStr name :: _ => [(name, deck_id)]
  | _ => []
  end.

(** The name of the entry, if it has one, is a string. *)
Definition nameable (entry : list json) : Prop :=
  match entry with
  | _ :: deck_name :: _ => exists name, deck_name = JStr name
  | _ => True
  end.

Lemma add_decks_entries qstring (entries : list (list json))
    (items : list (pystr * json)) :
  Forall nameable entries ->
  add_decks qstring (map JArr entries) items =
  (items ++ flat_map deck_item entries, Ok tt).
Proof.
  intros H; revert items; induction H as [|e entries He _ IH]; intros items.
  - cbn; now rewrite app_nil_r.
  - destruct e as [|x [|y more]]; cbn [map flat_map deck_item app].
    + apply IH.
    + apply IH.
    + destruct He as (name & ->).
      cbn [add_decks truthy negb py_len length Nat.ltb Nat.leb py_index
           as_sequence nth_error item_text].
      now rewrite IH, <- app_assoc.
Qed.

(** How a load may end without an error: nothing but the combo box, its
    current item and the client change in the dialog. *)
Lemma loaded_dialog qstring (u : session) api_key r :
  let d' := dlg (loaded qstring u api_key r) in
  api_key_input d' = api_key_input (dlg u) /\
  anki_deck_input d' = anki_deck_input (dlg u) /\
  note_type_combo d' = note_type_combo (dlg u) /\
  jpdb_client d' = Some api_key.
Proof.
  unfold loaded.
  destruct r as [decks|e]; [|repeat split].
  destruct (py_iter decks) as [entries|e]; [|repeat split].
  destruct (add_decks qstring entries []) as [items [[]|e]]; [|repeat split].
  destruct (py_len decks); repeat split.
Qed.

Lemma loaded_log qstring (u : session) api_key r :
  store (loaded qstring u api_key r) = store u /\
  core_events (log (loaded qstring u api_key r)) =
  core_events (log u) ++ [NetCall (decks_request api_key)].
Proof.
  assert (H : forall rest,
             core_events rest = [] ->
             core_events ((log u ++ [Status LoadingDecks;
                                     Core (NetCall (decks_request api_key))]) ++ rest) =
             core_events (log u) ++ [NetCall (decks_request api_key)]).
  { intros rest Hr; rewrite !core_events_app, Hr; cbn; now rewrite app_nil_r. }
  unfold loaded.
  destruct r as [decks|e]; [|split; [reflexivity|now apply H]].
  destruct (py_iter decks) as [entries|e]; [|split; [reflexivity|now apply H]].
  destruct (add_decks qstring entries []) as [items [[]|e]];
    [|split; [reflexivity|now apply H]].
  destruct (py_len decks); (split; [reflexivity|now apply H]).
Qed.

(** X14.  A load that succeeds: with a non-empty key and a response whose
    [decks] are entries [[id, name, ...]] (names being strings), the combo
    box holds one item per entry of at least two elements, text [name] and
    data [id], in the order of the service; shorter entries are passed over,
    yet the status line counts all entries.  One request was made, with the
    entered key, and the client for that key is kept. *)
Theorem load_jpdb_decks_fills_the_combo :
  forall (net : remote) (qstring : json -> pyres pystr) (u : session)
         (body : json) (entries : list (list json)),
    let api_key := strip (api_key_input (dlg u)) in
    api_key <> [] ->
    net (length (net_calls (core_events (log u)))) (decks_request api_key) =
      UrlOk body ->
    py_getitem body (lit "decks") = Ok (JArr (map JArr entries)) ->
    Forall nameable entries ->
    load_jpdb_decks net qstring u =
    mkSession
      (with_decks (dlg u) api_key (flat_map deck_item entries))
      (log u ++ [Status LoadingDecks; Core (NetCall (decks_request api_key));
                 Status (LoadedDecks (length entries))])
      (store u).
Proof.
  intros net qstring u body entries api_key Hk Hnet Hget Hnames.
  rewrite (load_jpdb_decks_loaded net qstring u Hk); fold api_key.
  rewrite Hnet; unfold loaded, listing; rewrite Hget.
  cbn [py_iter as_sequence py_len].
  rewrite (add_decks_entries qstring entries [] Hnames), length_map.
  cbn [app]; now rewrite <- app_assoc.
Qed.

Lemma load_jpdb_decks_fills_the_combo_witness :
  let net : remote := fun _ _ =>
    UrlOk (JObj [(lit "decks",
                  JArr [JArr [JNum 7; JStr (lit "Core"); JNum 0];
                        JArr [JNum 8];
                        JArr [];
                        JArr [JNum 9; JStr (lit "Anime")]])]) in
  let u := mkSession (mkDialog (lit " secret ") [(lit "Old", JNum 1)] 0
                        (lit "JPDB Import") (lit "Basic") None)
             [] collection0 in
  load_jpdb_decks net (fun _ => Raise TypeError) u =
  mkSession
    (mkDialog (lit " secret ") [(lit "Core", JNum 7); (lit "Anime", JNum 9)] 0
       (lit "JPDB Import") (lit "Basic") (Some (lit "secret")))
    [Status LoadingDecks; Core (NetCall (decks_request (lit "secret")));
     Status (LoadedDecks 4)]
    collection0.
Proof.
  intros net u.
  refine (load_jpdb_decks_fills_the_combo net (fun _ => Raise TypeError) u _
            [[JNum 7; JStr (lit "Core"); JNum 0]; [JNum 8]; [];
             [JNum 9; JStr (lit "Anime")]] _ eq_refl eq_refl _).
  - vm_compute; discriminate.
  - repeat constructor; eexists; reflexivity.
Defined.

(** X15.  A load that fails at the request (no decodable 2xx response, or
    no [decks] key in it) leaves the combo box empty, whatever it held
    before, and reports the error in the status log and in a warning.  An
    import started after that only asks to load the decks first: it issues
    no request and writes nothing. *)
Theorem load_failure_blocks_the_import :
  forall (net : remote) (qstring : json -> pyres pystr) (u : session) (e : exc),
    let api_key := strip (api_key_input (dlg u)) in
    api_key <> [] ->
    listing (net (length (net_calls (core_events (log u))))
               (decks_request api_key)) = Raise e ->
    let u' := load_jpdb_decks net qstring u in
    jpdb_deck_combo (dlg u') = [] /\
    log u' = log u ++ [Status LoadingDecks;
                       Core (NetCall (decks_request api_key));
                       Status (LoadError e); Warning (FailedToLoadDecks e)] /\
    forall (net' : remote) (str_repr : pystr -> pystr) (s : state),
      import_cards net' str_repr (dlg u') s =
      (Ok tt, mkState (trace s ++ [ShowWarning PleaseLoadDecks]) (col s)).
Proof.
  intros net qstring u e api_key Hk Hfail u'; subst u'.
  rewrite (load_jpdb_decks_loaded net qstring u Hk); fold api_key.
  rewrite Hfail; unfold loaded; cbn [dlg log with_decks jpdb_deck_combo].
  split; [reflexivity|split].
  - unfold load_failed; now rewrite <- app_assoc.
  - intros net' str_repr s; reflexivity.
Qed.

Lemma load_failure_blocks_the_import_witness :
  let net : remote := fun _ _ => UrlHTTPError 403 (lit "Forbidden") in
  let u := mkSession (dialog0 (lit "Basic")) [] collection0 in
  jpdb_deck_combo (dlg (load_jpdb_decks net (fun _ => Raise TypeError) u)) = [] /\
  import_cards net quote_repr
    (dlg (load_jpdb_decks net (fun _ => Raise TypeError) u)) (init collection0) =
  (Ok tt, mkState [ShowWarning PleaseLoadDecks] collection0).
Proof.
  intros net u.
  destruct (load_failure_blocks_the_import net (fun _ => Raise TypeError) u
              (HTTPException 403 (lit "Forbidden"))
              ltac:(vm_compute; discriminate) eq_refl)
    as (Hcombo & _ & Himport).
  split; [exact Hcombo|exact (Himport net quote_repr (init collection0))].
Defined.

(** The dialog knows a client whenever it shows decks. *)
Definition client_ready (d : dialog) : Prop :=
  jpdb_deck_combo d <> [] -> jpdb_client d <> None.

(** X16.  Whatever the server answers, [load_jpdb_decks] leaves the
    collection and the input fields alone and issues at most one request,
    the deck listing with the entered key (none without a key).  After a
    load with a key the dialog holds the client for that key; and a dialog
    that shows decks always has a client, before and after a load. *)
Theorem load_jpdb_decks_invariants :
  forall (net : remote) (qstring : json -> pyres pystr) (u : session),
    let api_key := strip (api_key_input (dlg u)) in
    let u' := load_jpdb_decks net qstring u in
    store u' = store u /\
    core_events (log u') =
    core_events (log u) ++
    match api_key with [] => [] | _ :: _ => [NetCall (decks_request api_key)] end /\
    api_key_input (dlg u') = api_key_input (dlg u) /\
    anki_deck_input (dlg u') = anki_deck_input (dlg u) /\
    note_type_combo (dlg u') = note_type_combo (dlg u) /\
    (api_key <> [] -> jpdb_client (dlg u') = Some api_key) /\
    (client_ready (dlg u) -> client_ready (dlg u')).
Proof.
  intros net qstring u api_key u'; subst u'.
  destruct api_key as [|ch key] eqn:E; subst api_key.
  - unfold load_jpdb_decks; rewrite E; cbn [store log dlg].
    rewrite core_events_app; cbn [core_events flat_map app].
    split; [reflexivity|split; [reflexivity|split; [reflexivity|split;
      [reflexivity|split; [reflexivity|split]]]]].
    + intros H; contradiction.
    + intros H; exact H.
  - assert (Hk : strip (api_key_input (dlg u)) <> []) by (rewrite E; discriminate).
    rewrite (load_jpdb_decks_loaded net qstring u Hk), E.
    destruct (loaded_dialog qstring u (ch :: key)
                (listing (net (length (net_calls (core_events (log u))))
                            (decks_request (ch :: key)))))
      as (Ha & Hd & Hn & Hc).
    destruct (loaded_log qstring u (ch :: key)
                (listing (net (length (net_calls (core_events (log u))))
                            (decks_request (ch :: key)))))
      as (Hs & Hl).
    cbv zeta in Ha, Hd, Hn, Hc.
    split; [exact Hs|split; [exact Hl|split; [exact Ha|split; [exact Hd|
      split; [exact Hn|split]]]]].
    + intros _; exact Hc.
    + unfold client_ready; intros _ _; rewrite Hc; discriminate.
Qed.

(** X17.  The import uses the key of the load, not the key in the field:
    after a load with a key, if the API key field is edited before the
    import, every request of the import still carries the key of the load,
    while the settings that the import saves hold the edited key. *)
Theorem import_uses_the_key_of_the_load :
  forall (net net' : remote) (qstring : json -> pyres pystr)
         (str_repr : pystr -> pystr) (u : session) (edited : pystr) (s : state),
    let api_key := strip (api_key_input (dlg u)) in
    let d := dlg (load_jpdb_decks net qstring u) in
    let d' := mkDialog edited (jpdb_deck_combo d) (jpdb_deck_index d)
                (anki_deck_input d) (note_type_combo d) (jpdb_client d) in
    api_key <> [] ->
    Forall (fun r => req_api_key r = api_key)
      (issued (import_cards net' str_repr d') s) /\
    (jpdb_deck_combo d <> [] -> strip (anki_deck_input d) <> [] ->
     exists rest,
       trace (snd (import_cards net' str_repr d' s)) =
       trace s ++ SaveConfig (strip edited) (strip (anki_deck_input d))
                    (note_type_combo d) :: rest).
Proof.
  intros net net' qstring str_repr u edited s api_key d d' Hk.
  assert (Hclient : jpdb_client d' = Some api_key).
  { subst d' d; cbn [jpdb_client].
    rewrite (load_jpdb_decks_loaded net qstring u Hk).
    apply loaded_dialog. }
  split.
  - eapply Forall_impl;
      [|apply (ImportTrace.import_cards_issued_good net' str_repr d' s api_key
                 Hclient)].
    intros r [->|(pairs & -> & _)]; reflexivity.
  - intros Hc Hd.
    destruct (ImportTrace.import_cards_trace net' str_repr d' s Hc Hd)
      as (evs & Ht & _).
    rewrite Ht; unfold Pipeline.fetching, Pipeline.started; cbn [trace].
    rewrite <- !app_assoc; cbn [app]; eexists; reflexivity.
Qed.

Lemma import_uses_the_key_of_the_load_witness :
  let net : remote := fun _ _ =>
    UrlOk (JObj [(lit "decks", JArr [JArr [JNum 7; JStr (lit "Core")]])]) in
  let net' := server (JArr (ids 2)) (fun _ => eat) None in
  let u := mkSession (mkDialog (lit "first") [] 0 (lit "JPDB Import")
                        (lit "Basic") None) [] collection0 in
  let d := dlg (load_jpdb_decks net (fun _ => Raise TypeError) u) in
  let d' := mkDialog (lit "second") (jpdb_deck_combo d) (jpdb_deck_index d)
              (anki_deck_input d) (note_type_combo d) (jpdb_client d) in
  Forall (fun r => req_api_key r = lit "first")
    (issued (import_cards net' quote_repr d') (init collection0)) /\
  length (issued (import_cards net' quote_repr d') (init collection0)) = 2.
Proof.
  intros net net' u d d'; split.
  - exact (proj1 (import_uses_the_key_of_the_load net net'
                    (fun _ => Raise TypeError) quote_repr u (lit "second")
                    (init collection0) ltac:(vm_compute; discriminate))).
  - vm_compute; reflexivity.
Defined.

End DeckList.

(** ** Opening the dialog: the saved settings come back *)

Module Reopening.
Import Py World JPDBImportDialog DialogSetup Facts Examples.
Open Scope nat_scope.

Lemma select_found (wanted : pystr) (items : list pystr) :
  In wanted items -> select wanted items = wanted.
Proof.
  unfold select; intros Hin.
  destruct (index_of wanted items) as [idx|] eqn:E.
  - apply ImportRun.index_of_nth in E.
    now apply nth_error_nth.
  - exfalso; induction items as [|x items IH]; [exact Hin|].
    cbn [index_of] in E; destruct (str_eqb wanted x) eqn:Ex; [discriminate|].
    destruct Hin as [->|Hin]; [now rewrite str_eqb_refl in Ex|].
    destruct (index_of wanted items); [discriminate|now apply IH].
Qed.

Lemma select_in (wanted : pystr) (items : list pystr) :
  items <> [] -> In (select wanted items) items.
Proof.
  intros Hne; unfold select.
  destruct (index_of wanted items) as [idx|] eqn:E.
  - apply ImportRun.index_of_nth in E.
    rewrite (nth_error_nth _ _ _ E); eapply nth_error_In; exact E.
  - destruct items; [contradiction|now left].
Qed.

Lemma by_name_listed (name : pystr) (c : collection) :
  In name (load_note_types c) -> exists nt, by_name name c = Some nt.
Proof.
  unfold load_note_types, by_name; induction (models c) as [|x l IH];
    intros Hin; [contradiction|].
  cbn [find]; destruct (str_eqb name (nt_name x)) eqn:E; [now exists x|].
  destruct Hin as [<-|Hin]; [now rewrite str_eqb_refl in E|auto].
Qed.

(** X18.  The settings round-trip through the file and the dialog.  When
    [save_settings()] has returned, a dialog created afterwards shows the
    saved API key and deck name and, if a note type of the saved name still
    exists, selects it; otherwise the first note type stays selected.  It
    starts without decks and without a client.  When [save_settings()]
    raised [UnicodeEncodeError] (a surrogate in a text), the file it left
    cannot be loaded and the new dialog shows the defaults; when the file
    could not be opened, the new dialog shows what the file held before. *)
Theorem open_dialog_restores_saved_settings :
  forall (qstring : json -> pyres pystr) (dev : JPDBConfig.device)
         (d : dialog) (old : JPDBConfig.file) (c : collection),
    match save_settings dev d old with
    | (Ok _, file) =>
        exists current,
          open_dialog qstring (JPDBConfig.init file) c =
          Ok (mkDialog (strip (api_key_input d)) [] 0
                (strip (anki_deck_input d)) current None) /\
          (In (note_type_combo d) (load_note_types c) ->
           current = note_type_combo d) /\
          (~ In (note_type_combo d) (load_note_types c) ->
           current = hd [] (load_note_types c))
    | (Raise e, file) =>
        match dev with
        | JPDBConfig.Accepts =>
            e = UnicodeEncodeError /\
            open_dialog qstring (JPDBConfig.init file) c =
            Ok (mkDialog [] [] 0 (lit "JPDB Import")
                  (select (lit "Basic") (load_note_types c)) None)
        | JPDBConfig.Refuses =>
            open_dialog qstring (JPDBConfig.init file) c =
            open_dialog qstring (JPDBConfig.init old) c
        | JPDBConfig.Breaks remains =>
            open_dialog qstring (JPDBConfig.init file) c =
            open_dialog qstring (JPDBConfig.init remains) c
        end
    end.
Proof.
  intros qstring dev d old c; unfold save_settings, JPDBConfig.save.
  destruct dev as [| |remains]; [|reflexivity|reflexivity].
  destruct (JPDBConfig.encodable _); [|split; reflexivity].
  exists (select (note_type_combo d) (load_note_types c)).
  split; [reflexivity|split].
  - apply select_found.
  - intros Hnot; unfold select.
    destruct (index_of (note_type_combo d) (load_note_types c)) as [idx|] eqn:E;
      [|reflexivity].
    exfalso; apply Hnot; apply ImportRun.index_of_nth in E.
    eapply nth_error_In; exact E.
Qed.

Lemma open_dialog_restores_saved_settings_witness :
  open_dialog (fun _ => Raise TypeError)
    (JPDBConfig.init
       (snd (save_settings JPDBConfig.Accepts
               (mkDialog (lit " secret ") [] 0 (lit "JPDB Import ")
                  (lit "Front only") None)
               JPDBConfig.Missing)))
    collection0 =
  Ok (mkDialog (lit "secret") [] 0 (lit "JPDB Import") (lit "Front only") None).
Proof.
  destruct (open_dialog_restores_saved_settings (fun _ => Raise TypeError)
              JPDBConfig.Accepts
              (mkDialog (lit " secret ") [] 0 (lit "JPDB Import ")
                 (lit "Front only") None)
              JPDBConfig.Missing collection0)
    as (current & Hopen & Hfound & _).
  cbn [note_type_combo] in Hfound; rewrite Hfound in Hopen;
    [|right; left; reflexivity].
  exact Hopen.
Defined.

(** X19.  In a dialog that opened on a collection with at least one note
    type, the selected note type is one of the collection: looked up by
    name, as [import_cards] does, it is found. *)
Theorem open_dialog_selects_an_existing_note_type :
  forall (qstring : json -> pyres pystr) (config : JPDBConfig.config)
         (c : collection) (d : dialog),
    open_dialog qstring config c = Ok d ->
    models c <> [] ->
    exists nt, by_name (note_type_combo d) c = Some nt.
Proof.
  intros qstring config c d Hopen Hne.
  unfold open_dialog in Hopen.
  destruct (qtext qstring (JPDBConfig.api_key config)); [|discriminate].
  destruct (qtext qstring (JPDBConfig.deck_name config)); [|discriminate].
  destruct (qtext qstring (JPDBConfig.note_type config)) as [wanted|];
    [|discriminate].
  cbn [pbind] in Hopen; injection Hopen as <-; cbn [note_type_combo].
  apply by_name_listed, select_in.
  unfold load_note_types; destruct (models c); [contradiction|discriminate].
Qed.

Lemma open_dialog_selects_an_existing_note_type_witness :
  exists nt, by_name (lit "Basic") collection0 = Some nt.
Proof.
  exact (open_dialog_selects_an_existing_note_type (fun _ => Raise TypeError)
           (JPDBConfig.init JPDBConfig.Missing) collection0
           (mkDialog [] [] 0 (lit "JPDB Import") (lit "Basic") None)
           eq_refl ltac:(discriminate)).
Defined.

End Reopening.
